(** * invest-backend: the in-memory property store of [server.js]

    A shallow embedding of the Express handlers of [src/server.js] in the
    mode the server runs in when [MONGODB_URI] is absent ([useMongo] is
    [false], "mode mémoire"), together with the JavaScript built-ins the
    handlers rely on ([Number], [String], [parseInt], [Math.max],
    [Math.min], [Array.prototype.sort], [Array.prototype.slice], ...).

    Conventions of the model.
    - A JavaScript number is a [num]: [NaN], the two infinities, or a finite
      value carried by its exact rational.  Leaving the binary64 range is
      modelled ([overflow], [underflow]); rounding of the significand is not,
      and the sign of zero is not tracked.
    - A JavaScript string is a Rocq [string], one character per code unit.
    - What the host environment decides (the regular-expression engine, ICU
      collation, the digits printed for a non-integral number) is a [Host].
    - [Date.now()] and [new Date()] are readings of a clock handed to the
      handler with the request.
    - A stored or received object or array is a value only through the
      string its conversion returns ([VObj]); one whose conversion throws
      is no value of the model.  What is stated of a read that converts
      stored values is stated of stores that hold no object
      ([scalar_fields]). *)

From Stdlib Require Import ZArith QArith Qabs Lqa String Ascii.
From Stdlib Require Import DecimalString DecimalPos DecimalZ.
From Stdlib Require Import Sorted.
From stdpp Require Import base list strings.

Set Default Proof Using "Type".

(* ================================================================== *)
(** ** JavaScript numbers *)
(* ================================================================== *)

Inductive num : Type :=
| NaN
| NegInf
| PosInf
| Fin (q : Q).

(** Every rational at or above [2^1024 - 2^970] rounds to [Infinity]. *)
Definition max_int : Z := 2 ^ 1024 - 2 ^ 970.
Definition max_bound : Q := inject_Z max_int.

(** Every rational of magnitude at most [2^-1075] rounds to zero. *)
Definition min_bound : Q := 1 # (2 ^ 1075).

Definition overflow (q : Q) : num :=
  if Qle_bool max_bound q then PosInf
  else if Qle_bool q (- max_bound) then NegInf
  else Fin q.

Definition underflow (q : Q) : Q :=
  if Qle_bool (Qabs q) min_bound then 0%Q else q.

(** Conversion of the mathematical value of a literal to a number. *)
Definition round_literal (q : Q) : num := overflow (underflow q).

Definition of_Z (z : Z) : num := Fin (inject_Z z).

Definition is_NaN (n : num) : bool :=
  match n with NaN => true | _ => false end.

(** [n > 0] *)
Definition num_pos (n : num) : bool :=
  match n with
  | PosInf => true
  | Fin q => negb (Qle_bool q 0)
  | _ => false
  end.

(** [a <= b]; false as soon as one side is [NaN]. *)
Definition num_le (a b : num) : bool :=
  match a, b with
  | NaN, _ | _, NaN => false
  | NegInf, _ => true
  | _, PosInf => true
  | _, NegInf => false
  | PosInf, _ => false
  | Fin x, Fin y => Qle_bool x y
  end.

(** [a >= b] *)
Definition num_ge (a b : num) : bool := num_le b a.

Definition num_neg (a : num) : num :=
  match a with
  | NaN => NaN
  | NegInf => PosInf
  | PosInf => NegInf
  | Fin q => Fin (- q)
  end.

Definition num_add (a b : num) : num :=
  match a, b with
  | NaN, _ | _, NaN => NaN
  | PosInf, NegInf | NegInf, PosInf => NaN
  | PosInf, _ | _, PosInf => PosInf
  | NegInf, _ | _, NegInf => NegInf
  | Fin x, Fin y => overflow (x + y)
  end.

(** [a - b].  The difference of two binary64 values never rounds to zero
    unless it is zero, so only [overflow] applies. *)
Definition num_sub (a b : num) : num := num_add a (num_neg b).

Definition num_mul (a b : num) : num :=
  match a, b with
  | NaN, _ | _, NaN => NaN
  | Fin x, Fin y => overflow (x * y)
  | Fin x, PosInf | PosInf, Fin x =>
      match (x ?= 0)%Q with Eq => NaN | Lt => NegInf | Gt => PosInf end
  | Fin x, NegInf | NegInf, Fin x =>
      match (x ?= 0)%Q with Eq => NaN | Lt => PosInf | Gt => NegInf end
  | PosInf, PosInf | NegInf, NegInf => PosInf
  | PosInf, NegInf | NegInf, PosInf => NegInf
  end.

(** [Math.max(a, b)] and [Math.min(a, b)]. *)
Definition Math_max (a b : num) : num :=
  if is_NaN a || is_NaN b then NaN else if num_le a b then b else a.

Definition Math_min (a b : num) : num :=
  if is_NaN a || is_NaN b then NaN else if num_le a b then a else b.

(** ToBoolean on a number: [NaN] and zero are falsy. *)
Definition num_truthy (n : num) : bool :=
  match n with
  | NaN => false
  | Fin q => negb (Qeq_bool q 0)
  | _ => true
  end.

(** [a || b] on numbers. *)
Definition num_or (a b : num) : num := if num_truthy a then a else b.

(* ================================================================== *)
(** ** Strings: white space, digits, numeric literals *)
(* ================================================================== *)

Open Scope Z_scope.

Definition code (c : ascii) : Z := Z.of_nat (nat_of_ascii c).

(** WhiteSpace and LineTerminator code units below 256. *)
Definition is_ws (c : ascii) : bool :=
  let n := code c in
  (n =? 9) || (n =? 10) || (n =? 11) || (n =? 12) || (n =? 13)
  || (n =? 32) || (n =? 160).

Fixpoint trim_start (s : string) : string :=
  match s with
  | String c r => if is_ws c then trim_start r else s
  | EmptyString => EmptyString
  end.

Fixpoint trim_end (s : string) : string :=
  match s with
  | String c r =>
      match trim_end r with
      | EmptyString => if is_ws c then EmptyString else String c EmptyString
      | r' => String c r'
      end
  | EmptyString => EmptyString
  end.

Definition trim (s : string) : string := trim_end (trim_start s).

Definition dec_digit (c : ascii) : option Z :=
  let n := code c in
  if (48 <=? n) && (n <=? 57) then Some (n - 48) else None.

Definition hex_digit (c : ascii) : option Z :=
  let n := code c in
  if (48 <=? n) && (n <=? 57) then Some (n - 48)
  else if (97 <=? n) && (n <=? 102) then Some (n - 87)
  else if (65 <=? n) && (n <=? 70) then Some (n - 55)
  else None.

Definition oct_digit (c : ascii) : option Z :=
  let n := code c in
  if (48 <=? n) && (n <=? 55) then Some (n - 48) else None.

Definition bin_digit (c : ascii) : option Z :=
  let n := code c in
  if (48 <=? n) && (n <=? 49) then Some (n - 48) else None.

(** The longest prefix of digits of [s]: its value on top of [acc], how many
    digits were read on top of [n], and what is left of [s]. *)
Fixpoint read_digits (digit : ascii -> option Z) (radix acc : Z) (n : nat)
    (s : string) : Z * nat * string :=
  match s with
  | String c r =>
      match digit c with
      | Some d => read_digits digit radix (acc * radix + d) (S n) r
      | None => (acc, n, s)
      end
  | EmptyString => (acc, n, s)
  end.

(** An optional sign in front of [s]: [true] for [-]. *)
Definition read_sign (s : string) : bool * string :=
  match s with
  | String "-" r => (true, r)
  | String "+" r => (false, r)
  | _ => (false, s)
  end.

Definition signed (neg : bool) (z : Z) : Z := if neg then - z else z.

(** [parseInt(s, 10)]: leading white space, a sign, then as many decimal
    digits as there are; anything after them is ignored. *)
Definition parseInt (s : string) : num :=
  let '(neg, r) := read_sign (trim_start s) in
  match read_digits dec_digit 10 0 0%nat r with
  | (_, O, _) => NaN
  | (v, _, _) => overflow (inject_Z (signed neg v))
  end.

(** [m * 10^e] as a rational. *)
Definition scale10 (m e : Z) : Q :=
  if 0 <=? e then inject_Z (m * 10 ^ e)
  else Qmake m (Z.to_pos (10 ^ (- e))).

(** ExponentPart, or nothing, up to the end of the string. *)
Definition read_exponent (s : string) : option Z :=
  match s with
  | EmptyString => Some 0
  | String c r =>
      if (code c =? 101) || (code c =? 69) then
        let '(neg, r') := read_sign r in
        match read_digits dec_digit 10 0 0%nat r' with
        | (_, O, _) => None
        | (v, _, EmptyString) => Some (signed neg v)
        | _ => None
        end
      else None
  end.

(** StrUnsignedDecimalLiteral other than [Infinity]. *)
Definition read_decimal (s : string) : option Q :=
  let '(ip, ni, r1) := read_digits dec_digit 10 0 0%nat s in
  let '(m, nf, r2) :=
    match r1 with
    | String "." r => read_digits dec_digit 10 ip 0%nat r
    | _ => (ip, 0%nat, r1)
    end in
  match (ni + nf)%nat with
  | O => None
  | _ =>
      match read_exponent r2 with
      | Some e => Some (scale10 m (e - Z.of_nat nf))
      | None => None
      end
  end.

(** NonDecimalIntegerLiteral after its two-character prefix. *)
Definition read_radix (digit : ascii -> option Z) (radix : Z) (s : string)
  : num :=
  match read_digits digit radix 0 0%nat s with
  | (_, O, _) => NaN
  | (v, _, EmptyString) => overflow (inject_Z v)
  | _ => NaN
  end.

(** StringToNumber: what [Number(s)] and every implicit conversion of a
    string to a number compute. *)
Definition StringToNumber (s : string) : num :=
  match trim s with
  | EmptyString => of_Z 0
  | String "0" (String "x" r) | String "0" (String "X" r) =>
      read_radix hex_digit 16 r
  | String "0" (String "o" r) | String "0" (String "O" r) =>
      read_radix oct_digit 8 r
  | String "0" (String "b" r) | String "0" (String "B" r) =>
      read_radix bin_digit 2 r
  | t =>
      let '(neg, r) := read_sign t in
      if String.eqb r "Infinity" then (if neg then NegInf else PosInf)
      else
        match read_decimal r with
        | Some q => round_literal (if neg then - q else q)%Q
        | None => NaN
        end
  end.

(** The decimal digits of an integer, as [String(n)] prints them when
    [|n| < 10^21]. *)
Definition Z_to_string (z : Z) : string :=
  NilZero.string_of_int (Z.to_int z).

Definition pad (width : nat) (z : Z) : string :=
  let s := Z_to_string z in
  String.concat "" (repeat "0"%string (width - String.length s)%nat) ++ s.

Close Scope Z_scope.

(* ================================================================== *)
(** ** JavaScript values and their conversions *)
(* ================================================================== *)

(** The values a property field or a request field can hold.  An array or
    a plain object parsed from JSON, or a member inherited from
    [Object.prototype], is a [VObj]; it carries the string its [toString]
    returns, which is all a conversion ever looks at. *)
Inductive value : Type :=
| VUndef
| VNull
| VBool (b : bool)
| VNum (n : num)
| VStr (s : string)
| VObj (prim : string).

(** What the JavaScript engine and its libraries decide. *)
Class Host : Type := {
  (** [new RegExp(source, 'i')]: [None] when the source is not a pattern
      (a SyntaxError is thrown), otherwise the [test] method of the
      compiled expression. *)
  RegExp_i : string -> option (string -> bool);
  (** [a.localeCompare(b)] on two strings. *)
  localeCompare : string -> string -> Z;
  (** Number::toString outside the integers below [10^21]. *)
  Number_toString : Q -> string
}.

Definition is_integer (x : Q) : bool :=
  (Qnum x mod Zpos (Qden x) =? 0)%Z.

Definition num_to_string `{Host} (n : num) : string :=
  match n with
  | NaN => "NaN"
  | PosInf => "Infinity"
  | NegInf => "-Infinity"
  | Fin x =>
      if is_integer x && Qle_bool (Qabs x) (inject_Z (10 ^ 21 - 1))
      then Z_to_string (Qnum x / Zpos (Qden x))
      else Number_toString x
  end.

(** ToNumber *)
Definition Number (v : value) : num :=
  match v with
  | VUndef => NaN
  | VNull => of_Z 0
  | VBool b => of_Z (if b then 1 else 0)
  | VNum n => n
  | VStr s => StringToNumber s
  | VObj prim => StringToNumber prim
  end.

(** ToString; the name [String] is the constructor of Rocq's strings. *)
Definition String_ `{Host} (v : value) : string :=
  match v with
  | VUndef => "undefined"
  | VNull => "null"
  | VBool b => if b then "true" else "false"
  | VNum n => num_to_string n
  | VStr s => s
  | VObj prim => prim
  end.

(** [v ?? d] *)
Definition nullish (v d : value) : value :=
  match v with
  | VUndef | VNull => d
  | _ => v
  end.

(** ToBoolean of a query parameter: a missing or empty one is falsy. *)
Definition truthy (p : option string) : bool :=
  match p with
  | Some s => negb (String.eqb s "")
  | None => false
  end.

(** A destructuring default: [name = d] applies when [name] is missing. *)
Definition default (p : option string) (d : string) : string :=
  match p with
  | Some s => s
  | None => d
  end.

(* ================================================================== *)
(** ** Dates *)
(* ================================================================== *)

Open Scope Z_scope.

(** The civil date of a day number counted from 1970-01-01. *)
Definition civil_from_days (days : Z) : Z * Z * Z :=
  let z := days + 719468 in
  let era := z / 146097 in
  let doe := z - era * 146097 in
  let yoe := (doe - doe / 1460 + doe / 36524 - doe / 146096) / 365 in
  let doy := doe - (365 * yoe + yoe / 4 - yoe / 100) in
  let mp := (5 * doy + 2) / 153 in
  let d := doy - (153 * mp + 2) / 5 + 1 in
  let m := if mp <? 10 then mp + 3 else mp - 9 in
  let y := yoe + era * 400 + (if m <=? 2 then 1 else 0) in
  (y, m, d).

(** [new Date(t).toISOString()] for a time value [t] in milliseconds. *)
Definition toISOString (t : Z) : string :=
  let '(y, m, d) := civil_from_days (t / 86400000) in
  let ms := t mod 86400000 in
  let sign : string := if y <? 0 then "-" else "+" in
  let year : string :=
    if (0 <=? y) && (y <=? 9999) then pad 4 y
    else String.append sign (pad 6 (Z.abs y)) in
  (year ++ "-" ++ pad 2 m ++ "-" ++ pad 2 d
   ++ "T" ++ pad 2 (ms / 3600000)
   ++ ":" ++ pad 2 (ms / 60000 mod 60)
   ++ ":" ++ pad 2 (ms / 1000 mod 60)
   ++ "." ++ pad 3 (ms mod 1000) ++ "Z")%string.

(** The two readings of the clock a create makes: [Date.now()] for the
    identifier and [new Date()] for [createdAt]. *)
Record clock : Type := { Date_now : Z; new_Date : Z }.

Close Scope Z_scope.

(* ================================================================== *)
(** ** Records, requests and responses *)
(* ================================================================== *)

(** An element of [memory].  A create stores numbers in [price] and
    [rentalYield] and a string in [location]; an update stores whatever the
    request body holds, [VUndef] for a field the body lacks. *)
Record property : Type := {
  _id : string;
  price : value;
  location : value;
  rentalYield : value;
  createdAt : string
}.

(** [req.body] as [express.json()] leaves it: an object, whose fields
    [price], [location] and [rentalYield] are read by destructuring
    ([VUndef] when the body has no such field). *)
Module Body.
Record t : Type := {
  price : value;
  location : value;
  rentalYield : value
}.
End Body.

(** [req.query]: each parameter is a string or missing. *)
Record query : Type := {
  q : option string;
  minPrice : option string;
  maxPrice : option string;
  minYield : option string;
  maxYield : option string;
  sortBy : option string;
  order : option string;
  page : option string;
  pageSize : option string
}.

Inductive exn : Type := SyntaxError | TypeError.

Inductive failure : Type :=
| Not_found           (* { error: 'Not found' } *)
| Thrown (e : exn).   (* { error: e.message } *)

Inductive reply : Type :=
| One (r : property)
| Page (items : list property) (total : nat) (page pageSize : num)
| OkTrue
| Failure (f : failure).

(** [res.status(status).json(body)] *)
Record response : Type := Json { status : Z; body : reply }.

(** A computation that returns or throws. *)
Inductive result (A : Type) : Type :=
| Return (a : A)
| Throw (e : exn).
Arguments Return {A} a.
Arguments Throw {A} e.

Definition bind {A B : Type} (m : result A) (k : A -> result B) : result B :=
  match m with
  | Return a => k a
  | Throw e => Throw e
  end.

Notation "'let*' x ':=' m 'in' k" := (bind m (fun x => k))
  (at level 10, x name, m at level 100, k at level 200).

(* ================================================================== *)
(** ** Array built-ins *)
(* ================================================================== *)

(** The index [Array.prototype.slice] makes of an argument, for an array of
    length [len]: truncated, counted from the end when negative, clamped to
    [0..len]. *)
Definition to_index (len : nat) (n : num) : nat :=
  match n with
  | NaN | NegInf => 0
  | PosInf => len
  | Fin x =>
      let i := Z.quot (Qnum x) (Zpos (Qden x)) in
      if (i <? 0)%Z then Z.to_nat (Z.max (Z.of_nat len + i) 0)
      else Z.to_nat (Z.min i (Z.of_nat len))
  end.

(** [l.slice(start, end)] *)
Definition slice {A : Type} (l : list A) (start end_ : num) : list A :=
  let k := to_index (length l) start in
  let final := to_index (length l) end_ in
  take (final - k) (drop k l).

Section Sort.
Context {A : Type} (comparefn : A -> A -> result num).

(** [x] goes in front of the first element it does not compare greater
    than; a comparison that yields [NaN] counts as zero. *)
Fixpoint insert_sorted (x : A) (l : list A) : result (list A) :=
  match l with
  | [] => Return [x]
  | y :: l' =>
      let* v := comparefn x y in
      if num_pos v then (let* r := insert_sorted x l' in Return (y :: r))
      else Return (x :: l)
  end.

(** [l.sort(comparefn)].  ECMAScript requires the sort to be stable and
    leaves the sequence of calls to [comparefn] to the implementation;
    this is a stable insertion sort.  An exception of [comparefn]
    propagates. *)
Fixpoint sort (l : list A) : result (list A) :=
  match l with
  | [] => Return []
  | x :: l' => let* s := sort l' in insert_sorted x s
  end.
End Sort.

(* ================================================================== *)
(** ** The handlers *)
(* ================================================================== *)

Section Handlers.
Context `{Host}.

(** *** CREATE: [app.post('/api/properties', ...)] *)
Definition handle_post (c : clock) (b : Body.t) (memory : list property)
  : response * list property :=
  let obj := {|
    _id := String_ (VNum (of_Z (Date_now c)));
    price := VNum (Number (Body.price b));
    location := VStr (String_ (Body.location b));
    rentalYield := VNum (Number (Body.rentalYield b));
    createdAt := toISOString (new_Date c)
  |} in
  (Json 201 (One obj), obj :: memory).

(** *** READ: [app.get('/api/properties', ...)] *)

Definition pageNum (qry : query) : num :=
  Math_max (num_or (parseInt (default (page qry) "1")) (of_Z 1)) (of_Z 1).

Definition sizeNum (qry : query) : num :=
  Math_min
    (Math_max (num_or (parseInt (default (pageSize qry) "20")) (of_Z 20))
              (of_Z 1))
    (of_Z 100).

(** [{ $gte, $lte }] *)
Record range : Type := { gte : option num; lte : option num }.

(** The [filter] object. *)
Record filter_spec : Type := {
  filter_location : option string;     (* $regex *)
  filter_price : option range;
  filter_rentalYield : option range
}.

Definition bound (p : option string) : option num :=
  match p with
  | Some s => if truthy p then Some (Number (VStr s)) else None
  | None => None
  end.

Definition build_range (lo hi : option string) : option range :=
  if truthy lo || truthy hi
  then Some {| gte := bound lo; lte := bound hi |}
  else None.

Definition build_filter (qry : query) : filter_spec := {|
  filter_location :=
    match q qry with
    | Some s => if truthy (q qry) then Some s else None
    | None => None
    end;
  filter_price := build_range (minPrice qry) (maxPrice qry);
  filter_rentalYield := build_range (minYield qry) (maxYield qry)
|}.

Definition apply_regex (src : option string) (lst : list property)
  : result (list property) :=
  match src with
  | Some s =>
      match RegExp_i s with
      | Some test =>
          Return (List.filter (fun x => test (String_ (location x))) lst)
      | None => Throw SyntaxError
      end
  | None => Return lst
  end.

Definition apply_range (field : property -> value) (r : option range)
    (lst : list property) : list property :=
  match r with
  | Some r =>
      let lst :=
        match gte r with
        | Some n => List.filter (fun x => num_ge (Number (field x)) n) lst
        | None => lst
        end in
      match lte r with
      | Some n => List.filter (fun x => num_le (Number (field x)) n) lst
      | None => lst
      end
  | None => lst
  end.

(** The three filtering steps, on a copy of [memory]. *)
Definition select (filter : filter_spec) (memory : list property)
  : result (list property) :=
  let* lst := apply_regex (filter_location filter) memory in
  Return (apply_range rentalYield (filter_rentalYield filter)
            (apply_range price (filter_price filter) lst)).

(** Members every record inherits from [Object.prototype]. *)
Definition Object_prototype (key : string) : value :=
  if String.eqb key "__proto__" then VObj "[object Object]"
  else if String.eqb key "constructor"
  then VObj "function Object() { [native code] }"
  else if existsb (String.eqb key)
            ["__defineGetter__"; "__defineSetter__"; "hasOwnProperty";
             "__lookupGetter__"; "__lookupSetter__"; "isPrototypeOf";
             "propertyIsEnumerable"; "toString"; "valueOf";
             "toLocaleString"]%string
  then VObj ("function " ++ key ++ "() { [native code] }")
  else VUndef.

(** [x[key]] *)
Definition get (x : property) (key : string) : value :=
  if String.eqb key "_id" then VStr (_id x)
  else if String.eqb key "price" then price x
  else if String.eqb key "location" then location x
  else if String.eqb key "rentalYield" then rentalYield x
  else if String.eqb key "createdAt" then VStr (createdAt x)
  else Object_prototype key.

Definition directed (order : string) (s : num) : num :=
  if String.eqb order "asc" then s else num_neg s.

(** The function handed to [list.sort]. *)
Definition comparator (sortBy order : string) (a b : property)
  : result num :=
  if String.eqb sortBy "location" then
    match location a with
    | VStr s =>
        Return (directed order
                  (of_Z (localeCompare s (String_ (location b)))))
    | _ => Throw TypeError
    end
  else
    Return (directed order
              (num_sub (Number (nullish (get a sortBy) (VNum (of_Z 0))))
                       (Number (nullish (get b sortBy) (VNum (of_Z 0)))))).

Definition sorted (qry : query) (lst : list property)
  : result (list property) :=
  sort (comparator (default (sortBy qry) "createdAt")
                   (default (order qry) "desc")) lst.

Definition handle_get (qry : query) (memory : list property) : response :=
  let pageNum := pageNum qry in
  let sizeNum := sizeNum qry in
  let filter := build_filter qry in
  match (let* lst := select filter memory in sorted qry lst) with
  | Return lst =>
      let total := length lst in
      let start := num_mul (num_sub pageNum (of_Z 1)) sizeNum in
      let items := slice lst start (num_add start sizeNum) in
      Json 200 (Page items total pageNum sizeNum)
  | Throw e => Json 500 (Failure (Thrown e))
  end.

(** [memory.findIndex(x => x._id === id)] *)
Definition findIndex (id : string) (memory : list property)
  : option (nat * property) :=
  list_find (fun x => _id x = id) memory.

(** *** UPDATE: [app.put('/api/properties/:id', ...)] *)
Definition handle_put (id : string) (b : Body.t) (memory : list property)
  : response * list property :=
  match findIndex id memory with
  | None => (Json 404 (Failure Not_found), memory)
  | Some (i, x) =>
      let x' := {|
        _id := _id x;
        price := Body.price b;
        location := Body.location b;
        rentalYield := Body.rentalYield b;
        createdAt := createdAt x
      |} in
      (Json 200 (One x'), <[i := x']> memory)
  end.

(** *** DELETE: [app.delete('/api/properties/:id', ...)] *)
Definition handle_delete (id : string) (memory : list property)
  : response * list property :=
  match findIndex id memory with
  | None => (Json 404 (Failure Not_found), memory)
  | Some (i, _) => (Json 200 OkTrue, delete i memory)
  end.

(** *** The server as a machine over [memory] *)
Inductive request : Type :=
| POST (c : clock) (b : Body.t)
| GET (qry : query)
| PUT (id : string) (b : Body.t)
| DELETE (id : string).

Definition step (r : request) (memory : list property)
  : response * list property :=
  match r with
  | POST c b => handle_post c b memory
  | GET qry => (handle_get qry memory, memory)
  | PUT id b => handle_put id b memory
  | DELETE id => handle_delete id memory
  end.

(** The responses to a sequence of requests, and the store they leave. *)
Fixpoint run (rs : list request) (memory : list property)
  : list response * list property :=
  match rs with
  | [] => ([], memory)
  | r :: rs' =>
      let '(resp, memory') := step r memory in
      let '(resps, memory'') := run rs' memory' in
      (resp :: resps, memory'')
  end.
End Handlers.

(* ================================================================== *)
(** ** A host to run the handlers on concrete requests *)
(* ================================================================== *)

Module Plain.
Definition lower (c : ascii) : ascii :=
  let n := nat_of_ascii c in
  if (65 <=? n)%nat && (n <=? 90)%nat then ascii_of_nat (n + 32) else c.

Fixpoint lowercase (s : string) : string :=
  match s with
  | String c r => String (lower c) (lowercase r)
  | EmptyString => EmptyString
  end.

Definition literal (c : ascii) : bool :=
  let n := nat_of_ascii c in
  ((48 <=? n)%nat && (n <=? 57)%nat) || ((65 <=? n)%nat && (n <=? 90)%nat)
  || ((97 <=? n)%nat && (n <=? 122)%nat) || (n =? 32)%nat.

Fixpoint literals (s : string) : bool :=
  match s with
  | String c r => literal c && literals r
  | EmptyString => true
  end.

Fixpoint contains (needle hay : string) : bool :=
  String.prefix needle hay
  || match hay with
     | String _ r => contains needle r
     | EmptyString => false
     end.

(** The engine knows the patterns made of ASCII letters, digits and
    spaces, which match the strings that contain them up to case, and
    takes no other; strings are collated by code unit; a number that is
    not an integer prints as [NaN]. *)
Definition host : Host := {|
  RegExp_i src :=
    if literals src
    then Some (fun s => contains (lowercase src) (lowercase s))
    else None;
  localeCompare a b :=
    match String.compare a b with Lt => (-1)%Z | Eq => 0%Z | Gt => 1%Z end;
  Number_toString _ := "NaN"
|}.
End Plain.

(* ================================================================== *)
(** ** Definitions for the statements *)
(* ================================================================== *)

(** The query with no parameter at all. *)
Definition no_query : query := {|
  q := None; minPrice := None; maxPrice := None;
  minYield := None; maxYield := None;
  sortBy := None; order := None; page := None; pageSize := None
|}.

(** The four range parameters of a query. *)
Inductive bound_param : Type := MinPrice | MaxPrice | MinYield | MaxYield.

Definition param (b : bound_param) (qry : query) : option string :=
  match b with
  | MinPrice => minPrice qry
  | MaxPrice => maxPrice qry
  | MinYield => minYield qry
  | MaxYield => maxYield qry
  end.

(** The query [qry] with the range parameter [b] set to [v]. *)
Definition with_param (b : bound_param) (v : option string) (qry : query)
  : query := {|
  q := q qry;
  minPrice := match b with MinPrice => v | _ => minPrice qry end;
  maxPrice := match b with MaxPrice => v | _ => maxPrice qry end;
  minYield := match b with MinYield => v | _ => minYield qry end;
  maxYield := match b with MaxYield => v | _ => maxYield qry end;
  sortBy := sortBy qry; order := order qry;
  page := page qry; pageSize := pageSize qry
|}.

(** The query [qry] asked for another page. *)
Definition with_page (p : option string) (qry : query) : query := {|
  q := q qry;
  minPrice := minPrice qry; maxPrice := maxPrice qry;
  minYield := minYield qry; maxYield := maxYield qry;
  sortBy := sortBy qry; order := order qry;
  page := p; pageSize := pageSize qry
|}.

(** The query [sortBy=createdAt&order=ord]. *)
Definition by_createdAt (ord : string) : query := {|
  q := None; minPrice := None; maxPrice := None;
  minYield := None; maxYield := None;
  sortBy := Some "createdAt"%string; order := Some ord;
  page := None; pageSize := None
|}.

(** The body [{}]. *)
Definition empty_body : Body.t := {|
  Body.price := VUndef; Body.location := VUndef; Body.rentalYield := VUndef
|}.

(** The keys of the fields every record has. *)
Definition own_key (key : string) : bool :=
  existsb (String.eqb key)
    ["_id"; "price"; "location"; "rentalYield"; "createdAt"]%string.

(** Strings of decimal digits. *)
Fixpoint all_digits (s : string) : bool :=
  match s with
  | String c r => bool_decide (is_Some (dec_digit c)) && all_digits r
  | EmptyString => true
  end.

(** A string that is not empty and ends with no white space. *)
Definition trimmed (s : string) : Prop :=
  trim_end s = s ∧ s ≠ EmptyString.

(** A store whose records were all created by the create handler. *)
Definition created_store (memory : list property) : Prop :=
  Forall (λ x, ∃ t, createdAt x = toISOString t) memory.

(** The condition a range puts on a record, both bounds at once. *)
Definition in_range (field : property → value) (r : option range)
    (x : property) : bool :=
  match r with
  | Some r =>
      match gte r with
      | Some n => num_ge (Number (field x)) n
      | None => true
      end
      && match lte r with
         | Some n => num_le (Number (field x)) n
         | None => true
         end
  | None => true
  end.

(** The condition a query puts on a record, all filters at once. *)
Definition matches `{Host} (qry : query) (x : property) : bool :=
  match filter_location (build_filter qry) with
  | Some s =>
      match RegExp_i s with
      | Some test => test (String_ (location x))
      | None => false
      end
  | None => true
  end
  && in_range price (filter_price (build_filter qry)) x
  && in_range rentalYield (filter_rentalYield (build_filter qry)) x.

(** The condition the two bounds [lo] and [hi] of a field put on a value
    of the field, read off the parameters: a bound that is missing or
    empty puts none, another one compares, the bound included. *)
Definition within (lo hi : option string) (v : value) : bool :=
  match lo with
  | Some s =>
      if String.eqb s "" then true else num_ge (Number v) (Number (VStr s))
  | None => true
  end
  && match hi with
     | Some s =>
         if String.eqb s "" then true else num_le (Number v) (Number (VStr s))
     | None => true
     end.

(** The records a query asks for, read off its parameters: [q], when it
    is not empty, matches the location as a pattern that ignores case, the
    price is within [minPrice] and [maxPrice], the yield within [minYield]
    and [maxYield]. *)
Definition passes `{Host} (qry : query) (x : property) : bool :=
  match q qry with
  | Some s =>
      if String.eqb s "" then true
      else match RegExp_i s with
           | Some test => test (String_ (location x))
           | None => false
           end
  | None => true
  end
  && within (minPrice qry) (maxPrice qry) (price x)
  && within (minYield qry) (maxYield qry) (rentalYield x).

(** A value that is no object and no array: [undefined], [null], a
    boolean, a number or a string.  The source converts these without
    calling into them.  The conversion of an object or an array calls its
    [toString], which a JSON body can replace by what is no function, and
    then throws. *)
Definition primitive (v : value) : bool :=
  match v with
  | VObj _ => false
  | _ => true
  end.

(** A record none of whose price, location and yield is an object or an
    array: what a create stores, and what an update stores whose body
    holds JSON scalars. *)
Definition scalar_fields (x : property) : bool :=
  primitive (price x) && primitive (location x) && primitive (rentalYield x).

(** The text filter of a query is a pattern, or there is none. *)
Definition pattern_ok `{Host} (qry : query) : bool :=
  match filter_location (build_filter qry) with
  | Some s => bool_decide (is_Some (RegExp_i s))
  | None => true
  end.

(** The query [qry] sorted by [key] in the order [ord]. *)
Definition sorted_by (key ord : string) (qry : query) : query := {|
  q := q qry;
  minPrice := minPrice qry; maxPrice := maxPrice qry;
  minYield := minYield qry; maxYield := maxYield qry;
  sortBy := Some key; order := Some ord;
  page := page qry; pageSize := pageSize qry
|}.

(** How many of the responses answer a create, and how many a delete that
    removed a record. *)
Definition created_count (resps : list response) : nat :=
  length (List.filter (λ r, (status r =? 201)%Z) resps).

Definition deleted_count (resps : list response) : nat :=
  length (List.filter
            (λ r, match body r with OkTrue => true | _ => false end) resps).

(** The readings of [Date.now()] the creates of a sequence make. *)
Fixpoint clocks (rs : list request) : list Z :=
  match rs with
  | [] => []
  | POST c _ :: rs' => Date_now c :: clocks rs'
  | _ :: rs' => clocks rs'
  end.

(** The records whose price is the number [n], up to the writing of [n]. *)
Definition priced (n : num) (x : property) : bool :=
  num_le n (Number (price x)) && num_le (Number (price x)) n.

(** The clamp of an integer to [[1, 100]]. *)
Definition clamp_1_100 (z : Z) : Z := Z.min (Z.max z 1) 100.

(** An array has fewer than [2^32] elements. *)
Definition is_array {A : Type} (l : list A) : Prop :=
  (Z.of_nat (length l) < 4294967296)%Z.

(** Sample data. *)
Definition paris : Body.t := {|
  Body.price := VNum (of_Z 1000);
  Body.location := VStr "Paris";
  Body.rentalYield := VNum (Fin (9 # 2))
|}.

Definition lyon : Body.t := {|
  Body.price := VNum (of_Z 500);
  Body.location := VStr "Lyon";
  Body.rentalYield := VNum (of_Z 6)
|}.

Definition paris2 : Body.t := {|
  Body.price := VNum (of_Z 1500);
  Body.location := VStr "Paris";
  Body.rentalYield := VNum (of_Z 3)
|}.

Definition at_ (t : Z) : clock := {| Date_now := t; new_Date := t |}.

(** The store after the three sample creates, a minute apart. *)
Definition sample_store : list property :=
  snd (run (H := Plain.host)
         [POST (at_ 1700000000000) paris;
          POST (at_ 1700000060000) lyon;
          POST (at_ 1700000120000) paris2] []).

(** The three sample creates, as requests. *)
Definition sample_posts : list request :=
  [POST (at_ 1700000000000) paris;
   POST (at_ 1700000060000) lyon;
   POST (at_ 1700000120000) paris2].

(** A body with a price and nothing else. *)
Definition price_only : Body.t := {|
  Body.price := VNum (of_Z 700);
  Body.location := VUndef;
  Body.rentalYield := VUndef
|}.

(** The sample store after an update of each record with [price_only]. *)
Definition updated_store : list property :=
  snd (run (H := Plain.host)
         (sample_posts ++ [PUT "1700000000000" price_only;
                           PUT "1700000060000" price_only;
                           PUT "1700000120000" price_only]) []).

(** The sample store after one more create of [lyon]. *)
Definition tied_store : list property :=
  snd (run (H := Plain.host)
         (sample_posts ++ [POST (at_ 1700000180000) lyon]) []).

(* ================================================================== *)
(** ** Facts about numbers *)
(* ================================================================== *)

Lemma num_le_NaN_r (a : num) : num_le a NaN = false.
Proof. by destruct a. Qed.

Lemma num_le_NaN_l (a : num) : num_le NaN a = false.
Proof. by destruct a. Qed.

Lemma Qle_bool_inject (a b : Z) :
  Qle_bool (inject_Z a) (inject_Z b) = (a <=? b)%Z.
Proof. unfold Qle_bool, inject_Z; cbn [Qnum Qden]. by rewrite !Z.mul_1_r. Qed.

Lemma Qplus_inject (a b : Z) : (inject_Z a + inject_Z b)%Q = inject_Z (a + b).
Proof.
  unfold Qplus, inject_Z; cbn [Qnum Qden]. f_equal. by rewrite !Z.mul_1_r.
Qed.

Lemma Qmult_inject (a b : Z) : (inject_Z a * inject_Z b)%Q = inject_Z (a * b).
Proof. reflexivity. Qed.

Lemma Qopp_inject (a : Z) : (- inject_Z a)%Q = inject_Z (- a).
Proof. reflexivity. Qed.

(** An integer either leaves the range or is kept as it is. *)
Lemma overflow_inject (z : Z) :
  overflow (inject_Z z) = PosInf ∨ overflow (inject_Z z) = NegInf
  ∨ overflow (inject_Z z) = of_Z z.
Proof.
  unfold overflow.
  destruct (Qle_bool max_bound (inject_Z z)); [by left|].
  destruct (Qle_bool (inject_Z z) (- max_bound)); [by right; left|].
  by right; right.
Qed.

Lemma max_int_large : (4294967296 < max_int)%Z.
Proof. reflexivity. Qed.

Lemma overflow_inject_small (z : Z) :
  (- max_int < z < max_int)%Z → overflow (inject_Z z) = of_Z z.
Proof.
  intros Hz. unfold overflow, max_bound.
  rewrite Qopp_inject, !Qle_bool_inject.
  destruct (Z.leb_spec max_int z); [lia|].
  destruct (Z.leb_spec z (- max_int)); [lia|done].
Qed.

Lemma overflow_inject_large (z : Z) :
  (max_int <= z)%Z → overflow (inject_Z z) = PosInf.
Proof.
  intros Hz. unfold overflow, max_bound. rewrite Qle_bool_inject.
  by destruct (Z.leb_spec max_int z); [|lia].
Qed.

Lemma num_sub_of_Z (a b : Z) :
  num_sub (of_Z a) (of_Z b) = overflow (inject_Z (a - b)).
Proof.
  unfold num_sub, of_Z; cbn [num_neg num_add].
  by rewrite Qopp_inject, Qplus_inject.
Qed.

Lemma num_add_of_Z (a b : Z) :
  num_add (of_Z a) (of_Z b) = overflow (inject_Z (a + b)).
Proof. unfold of_Z; cbn [num_add]. by rewrite Qplus_inject. Qed.

Lemma num_mul_of_Z (a b : Z) :
  num_mul (of_Z a) (of_Z b) = overflow (inject_Z (a * b)).
Proof. reflexivity. Qed.

Lemma num_le_of_Z (a b : Z) : num_le (of_Z a) (of_Z b) = (a <=? b)%Z.
Proof. unfold of_Z; cbn [num_le]. apply Qle_bool_inject. Qed.

Lemma num_truthy_of_Z (z : Z) : num_truthy (of_Z z) = negb (z =? 0)%Z.
Proof.
  unfold of_Z, num_truthy. f_equal.
  destruct (Qeq_bool (inject_Z z) 0) eqn:E.
  - apply Qeq_bool_iff in E. unfold Qeq, inject_Z in E; cbn [Qnum Qden] in E.
    symmetry; apply Z.eqb_eq. lia.
  - apply Qeq_bool_neq in E. symmetry; apply Z.eqb_neq. by intros ->.
Qed.

Lemma to_index_of_Z (len : nat) (z : Z) :
  to_index len (of_Z z)
  = if (z <? 0)%Z then Z.to_nat (Z.max (Z.of_nat len + z) 0)
    else Z.to_nat (Z.min z (Z.of_nat len)).
Proof. unfold to_index, of_Z, inject_Z; cbn [Qnum Qden]. by rewrite Z.quot_1_r. Qed.

Lemma Math_max_of_Z (a b : Z) : Math_max (of_Z a) (of_Z b) = of_Z (Z.max a b).
Proof.
  unfold Math_max. cbn [is_NaN of_Z orb]. fold (of_Z a) (of_Z b).
  rewrite num_le_of_Z. destruct (Z.leb_spec a b); f_equal; lia.
Qed.

Lemma Math_min_of_Z (a b : Z) : Math_min (of_Z a) (of_Z b) = of_Z (Z.min a b).
Proof.
  unfold Math_min. cbn [is_NaN of_Z orb]. fold (of_Z a) (of_Z b).
  rewrite num_le_of_Z. destruct (Z.leb_spec a b); f_equal; lia.
Qed.

Lemma parseInt_cases (s : string) :
  parseInt s = NaN ∨ parseInt s = PosInf ∨ parseInt s = NegInf
  ∨ ∃ z, parseInt s = of_Z z.
Proof.
  unfold parseInt. destruct (read_sign (trim_start s)) as [neg r].
  destruct (read_digits dec_digit 10 0 0 r) as [[v n] r'].
  destruct n as [|n]; [by left|].
  destruct (overflow_inject (signed neg v)) as [-> | [-> | ->]]; eauto 6.
Qed.

(* ================================================================== *)
(** ** Facts about [sort] and [slice] *)
(* ================================================================== *)

Section SortFacts.
Context {A : Type} (comparefn : A → A → result num).

Lemma insert_sorted_perm (x : A) (l r : list A) :
  insert_sorted comparefn x l = Return r → r ≡ₚ x :: l.
Proof.
  revert r; induction l as [|y l IH]; intros r; cbn [insert_sorted].
  - by intros [= <-].
  - destruct (comparefn x y) as [v|e]; cbn [bind]; [|done].
    destruct (num_pos v); [|by intros [= <-]].
    destruct (insert_sorted comparefn x l) as [r'|e]; cbn [bind]; [|done].
    intros [= <-]. rewrite (IH r' eq_refl). apply Permutation_swap.
Qed.

(** A sort that returns has permuted its argument. *)
Lemma sort_perm (l r : list A) : sort comparefn l = Return r → r ≡ₚ l.
Proof.
  revert r; induction l as [|x l IH]; intros r; cbn [sort].
  - by intros [= <-].
  - destruct (sort comparefn l) as [s|e]; cbn [bind]; [|done].
    intros Hr%insert_sorted_perm. by rewrite Hr, (IH s eq_refl).
Qed.

Lemma sort_length (l r : list A) :
  sort comparefn l = Return r → length r = length l.
Proof. intros Hr%sort_perm. by rewrite Hr. Qed.

(** A comparison function that never answers "greater" on the elements
    of a list moves none of them. *)
Lemma sort_neutral_on (P : A → Prop) (l : list A) :
  (∀ a b, P a → P b → ∃ v, comparefn a b = Return v ∧ num_pos v = false) →
  Forall P l → sort comparefn l = Return l.
Proof.
  intros Hc. induction 1 as [|x l Hx Hl IH]; [done|].
  cbn [sort]. rewrite IH; cbn [bind].
  destruct Hl as [|y l' Hy _]; [done|].
  cbn [insert_sorted]. destruct (Hc x y Hx Hy) as (v & -> & Hv); cbn [bind].
  by rewrite Hv.
Qed.

Lemma sort_neutral (l : list A) :
  (∀ a b, ∃ v, comparefn a b = Return v ∧ num_pos v = false) →
  sort comparefn l = Return l.
Proof.
  intros Hc. apply (sort_neutral_on (λ _, True)); [auto|].
  by apply Forall_forall.
Qed.
End SortFacts.

Lemma slice_nil {A : Type} (start end_ : num) : slice (@nil A) start end_ = [].
Proof. unfold slice. by rewrite drop_nil, take_nil. Qed.

(** The window [slice] cuts when it is asked for [n] elements from a
    non-negative integral [start]. *)
Lemma slice_window {A : Type} (l : list A) (s n : Z) :
  (0 <= s)%Z → (0 <= n)%Z →
  slice l (of_Z s) (of_Z (s + n)) = take (Z.to_nat n) (drop (Z.to_nat s) l).
Proof.
  intros Hs Hn. unfold slice. rewrite !to_index_of_Z.
  destruct (Z.ltb_spec s 0); [lia|]. destruct (Z.ltb_spec (s + n) 0); [lia|].
  destruct (Z.le_gt_cases (Z.of_nat (length l)) s) as [Hge|Hlt].
  - rewrite !drop_ge by lia. by rewrite !take_nil.
  - replace (Z.to_nat (Z.min s (Z.of_nat (length l)))) with (Z.to_nat s) by lia.
    destruct (Z.le_gt_cases (s + n) (Z.of_nat (length l))).
    + f_equal. lia.
    + rewrite !take_ge; [done| |]; rewrite length_drop; lia.
Qed.

Lemma slice_from_end {A : Type} (l : list A) (end_ : num) :
  slice l PosInf end_ = [].
Proof.
  unfold slice; cbn [to_index]. rewrite drop_ge by lia. by rewrite take_nil.
Qed.

Lemma slice_to_end {A : Type} (l : list A) (s : Z) :
  (0 <= s)%Z → slice l (of_Z s) PosInf = drop (Z.to_nat s) l.
Proof.
  intros Hs. unfold slice. rewrite to_index_of_Z; cbn [to_index].
  destruct (Z.ltb_spec s 0); [lia|].
  destruct (Z.le_gt_cases (Z.of_nat (length l)) s) as [Hge|Hlt].
  - rewrite !drop_ge by lia. by rewrite take_nil.
  - replace (Z.to_nat (Z.min s (Z.of_nat (length l)))) with (Z.to_nat s) by lia.
    apply take_ge. rewrite length_drop. lia.
Qed.

Lemma num_mul_PosInf_pos (n : Z) : (1 <= n)%Z → num_mul PosInf (of_Z n) = PosInf.
Proof.
  intros Hn. unfold of_Z, num_mul.
  replace (inject_Z n ?= 0)%Q with Gt; [done|].
  symmetry. unfold Qcompare, inject_Z; cbn [Qnum Qden]. apply Z.compare_gt_iff. lia.
Qed.

(** The window of a page, computed as the read handler computes it, on an
    array (whose length is below [2^32]). *)
Lemma slice_page {A : Type} (l : list A) (p n : Z) :
  (Z.of_nat (length l) < 4294967296)%Z → (1 <= p)%Z → (1 <= n <= 100)%Z →
  let start := num_mul (num_sub (of_Z p) (of_Z 1)) (of_Z n) in
  slice l start (num_add start (of_Z n))
  = take (Z.to_nat n) (drop (Z.to_nat ((p - 1) * n)) l).
Proof.
  intros Hlen Hp Hn. pose proof max_int_large as HM. cbv zeta.
  assert (Hempty : take (Z.to_nat n) (drop (Z.to_nat ((p - 1) * n)) l) = []
                   ∨ ((p - 1) * n < Z.of_nat (length l))%Z).
  { destruct (Z.le_gt_cases (Z.of_nat (length l)) ((p - 1) * n)); [left|by right].
    rewrite drop_ge by lia. apply take_nil. }
  rewrite num_sub_of_Z.
  destruct (Z.lt_ge_cases (p - 1) max_int) as [H1|H1].
  2:{ rewrite overflow_inject_large, num_mul_PosInf_pos, slice_from_end by lia.
      destruct Hempty as [->|]; [done|nia]. }
  rewrite overflow_inject_small, num_mul_of_Z by lia.
  destruct (Z.lt_ge_cases ((p - 1) * n) max_int) as [H2|H2].
  2:{ rewrite overflow_inject_large, slice_from_end by lia.
      destruct Hempty as [->|]; [done|lia]. }
  rewrite overflow_inject_small, num_add_of_Z by nia.
  destruct (Z.lt_ge_cases ((p - 1) * n + n) max_int) as [H3|H3].
  - rewrite overflow_inject_small by nia. apply slice_window; nia.
  - rewrite overflow_inject_large, slice_to_end by nia.
    symmetry; apply take_ge. rewrite length_drop. lia.
Qed.

(* ================================================================== *)
(** ** The order of a sorted list *)
(* ================================================================== *)

Lemma Qle_bool_minus (x y : Q) : Qle_bool (x + - y) 0 = Qle_bool x y.
Proof.
  destruct (Qle_bool x y) eqn:E.
  - apply Qle_bool_iff in E. apply Qle_bool_iff. lra.
  - destruct (Qle_bool (x + - y) 0) eqn:E'; [|done].
    apply Qle_bool_iff in E'. assert (E'' : (x <= y)%Q) by lra.
    apply Qle_bool_iff in E''. congruence.
Qed.

Lemma max_bound_pos : (0 < max_bound)%Q.
Proof. reflexivity. Qed.

(** The difference of two numbers is positive exactly when the first is
    not below or equal to the second. *)
Lemma num_pos_sub (a b : num) :
  is_NaN a = false → is_NaN b = false →
  num_pos (num_sub a b) = negb (num_le a b).
Proof.
  pose proof max_bound_pos as HM.
  destruct a as [| | |x], b as [| | |y]; try done. intros _ _.
  unfold num_sub; cbn [num_neg num_add num_le]. unfold overflow.
  rewrite <- (Qle_bool_minus x y).
  destruct (Qle_bool max_bound (x + - y)) eqn:E1.
  { apply Qle_bool_iff in E1. cbn [num_pos]. symmetry. apply negb_true_iff.
    destruct (Qle_bool (x + - y) 0) eqn:E; [|done].
    apply Qle_bool_iff in E. lra. }
  destruct (Qle_bool (x + - y) (- max_bound)) eqn:E2; [|done].
  apply Qle_bool_iff in E2. cbn [num_pos]. symmetry. apply negb_false_iff.
  apply Qle_bool_iff. lra.
Qed.

Lemma num_le_total (a b : num) :
  is_NaN a = false → is_NaN b = false → num_le a b = false → num_le b a = true.
Proof.
  destruct a as [| | |x], b as [| | |y]; try done. intros _ _. cbn [num_le].
  intros E. apply Qle_bool_iff.
  destruct (Qlt_le_dec y x) as [Hlt|Hle]; [lra|].
  apply Qle_bool_iff in Hle. congruence.
Qed.

Lemma num_le_trans (a b c : num) :
  num_le a b = true → num_le b c = true → num_le a c = true.
Proof.
  destruct a as [| | |x], b as [| | |y], c as [| | |z]; try done.
  cbn [num_le]. rewrite !Qle_bool_iff. lra.
Qed.

Section SortedFacts.
Context {A : Type} (comparefn : A → A → result num) (R : A → A → Prop).
Context (P : A → Prop).
Hypothesis comparefn_returns :
  ∀ a b, P a → P b → ∃ v, comparefn a b = Return v ∧
                          (num_pos v = false → R a b) ∧
                          (num_pos v = true → R b a).

Lemma insert_sorted_Sorted (x : A) (l : list A) :
  P x → Forall P l → Sorted R l →
  ∃ r, insert_sorted comparefn x l = Return r ∧ Sorted R r
       ∧ ∀ y, HdRel R y l → R y x → HdRel R y r.
Proof using comparefn_returns.
  intros Hx Hl Hs. induction Hl as [|z l Hz Hl IH]; cbn [insert_sorted].
  - eexists; split; [done|]. split; [by repeat constructor|].
    intros y _ Hy. by constructor.
  - destruct (comparefn_returns x z Hx Hz) as (v & -> & Hle & Hgt); cbn [bind].
    apply Sorted_inv in Hs as [Hs Hhd].
    destruct (num_pos v) eqn:Hv.
    + destruct (IH Hs) as (r & -> & Hr & Hhd'); cbn [bind].
      eexists; split; [done|]. split.
      * constructor; [done|]. apply Hhd'; auto.
      * intros y Hy _. apply HdRel_inv in Hy. by constructor.
    + eexists; split; [done|]. split.
      * constructor; [by constructor|constructor; auto].
      * intros y _ Hy. by constructor.
Qed.

(** On elements it can compare, [sort] returns, and returns a list whose
    neighbours are in order. *)
Lemma sort_Sorted (l : list A) :
  Forall P l → ∃ r, sort comparefn l = Return r ∧ Sorted R r ∧ Forall P r.
Proof using comparefn_returns.
  induction 1 as [|x l Hx Hl (s & Hs & Hsorted & HP)]; cbn [sort].
  - by exists [].
  - rewrite Hs; cbn [bind].
    destruct (insert_sorted_Sorted x s Hx HP Hsorted) as (r & Hr & Hsr & _).
    exists r. split; [done|]. split; [done|].
    apply insert_sorted_perm in Hr. rewrite Hr. by constructor.
Qed.
End SortedFacts.

Lemma Sorted_drop {A : Type} (R : A → A → Prop) (n : nat) (l : list A) :
  Sorted R l → Sorted R (drop n l).
Proof.
  revert l; induction n as [|n IH]; intros l Hl; [by rewrite drop_0|].
  destruct l as [|x l]; [done|]. apply Sorted_inv in Hl as [Hl _]. by apply IH.
Qed.

Lemma Sorted_take {A : Type} (R : A → A → Prop) (n : nat) (l : list A) :
  Sorted R l → Sorted R (take n l).
Proof.
  revert l; induction n as [|n IH]; intros l Hl; [constructor|].
  destruct l as [|x l]; [done|]. apply Sorted_inv in Hl as [Hl Hhd].
  cbn [take]. constructor; [by apply IH|].
  destruct Hhd; [by rewrite take_nil|]. destruct n; by constructor.
Qed.

Lemma Sorted_slice {A : Type} (R : A → A → Prop) (l : list A)
    (start end_ : num) :
  Sorted R l → Sorted R (slice l start end_).
Proof. intros Hl. unfold slice. by apply Sorted_take, Sorted_drop. Qed.

(* ================================================================== *)
(** ** An ISO date is not a number *)
(* ================================================================== *)

Lemma append_cons (c : ascii) (a b : string) :
  (String c a ++ b)%string = String c (a ++ b).
Proof. reflexivity. Qed.

Lemma append_nil_l (b : string) : ("" ++ b)%string = b.
Proof. reflexivity. Qed.

Lemma all_digits_app (a b : string) :
  all_digits (a ++ b) = all_digits a && all_digits b.
Proof.
  induction a as [|c a IH]; [done|].
  rewrite append_cons. cbn [all_digits]. by rewrite IH, andb_assoc.
Qed.

Lemma string_of_uint_digits (d : Decimal.uint) :
  all_digits (NilEmpty.string_of_uint d) = true.
Proof. induction d; cbn [NilEmpty.string_of_uint all_digits]; done. Qed.

Lemma Z_to_string_digits (z : Z) :
  (0 <= z)%Z → all_digits (Z_to_string z) = true ∧ Z_to_string z ≠ ""%string.
Proof.
  intros Hz. unfold Z_to_string. destruct z as [|p|p]; [done| |lia].
  cbn [Z.to_int NilZero.string_of_int]. unfold NilZero.string_of_uint.
  pose proof (Unsigned.to_uint_nonnil p) as Hnil.
  pose proof (string_of_uint_digits (Pos.to_uint p)) as Hd.
  destruct (Pos.to_uint p); done.
Qed.

Lemma pad_digits (width : nat) (z : Z) :
  (0 <= z)%Z → all_digits (pad width z) = true ∧ pad width z ≠ ""%string.
Proof.
  intros [Hd Hne]%Z_to_string_digits. unfold pad; cbv zeta.
  generalize (width - String.length (Z_to_string z)). intros k. split.
  - rewrite all_digits_app, Hd, andb_true_r.
    induction k as [|[|k] IH]; try done.
  - destruct (String.concat "" (repeat "0"%string k)); [done|discriminate].
Qed.

Lemma trimmed_cons (c : ascii) (s : string) : trimmed s → trimmed (String c s).
Proof.
  intros [Ht Hne]. split; [|done]. cbn [trim_end]. rewrite Ht.
  by destruct s.
Qed.

Lemma trimmed_app (a b : string) : trimmed b → trimmed (a ++ b).
Proof.
  intros Hb. induction a as [|c a IH]; [done|]. by apply trimmed_cons.
Qed.

Lemma trim_digits_dash (ds tl : string) :
  all_digits ds = true → ds ≠ ""%string → trimmed tl →
  trim (ds ++ tl) = (ds ++ tl)%string.
Proof.
  intros Hd Hne Htl. unfold trim.
  destruct ds as [|c ds]; [done|]. rewrite append_cons. cbn [trim_start].
  replace (is_ws c) with false.
  - rewrite <- append_cons. apply (trimmed_app (String c ds) tl Htl).
  - cbn [all_digits] in Hd. apply andb_true_iff in Hd as [Hc%bool_decide_eq_true _].
    destruct c as [[] [] [] [] [] [] [] []]; try done; by destruct Hc.
Qed.

Lemma read_digits_dash (ds tl : string) (acc : Z) (n : nat) :
  all_digits ds = true →
  ∃ v, read_digits dec_digit 10 acc n (ds ++ String "-" tl)
       = (v, n + String.length ds, String "-" tl).
Proof.
  revert acc n; induction ds as [|c ds IH]; intros acc n Hd.
  - exists acc. rewrite append_nil_l. cbn. by rewrite Nat.add_0_r.
  - cbn [all_digits] in Hd.
    apply andb_true_iff in Hd as [[d Hc]%bool_decide_eq_true Hd].
    rewrite append_cons. cbn [read_digits String.length]. rewrite Hc.
    destruct (IH (acc * 10 + d)%Z (S n) Hd) as [v ->].
    exists v. by rewrite Nat.add_succ_r.
Qed.

Lemma read_decimal_dash (ds tl : string) :
  all_digits ds = true → read_decimal (ds ++ String "-" tl) = None.
Proof.
  intros Hd. unfold read_decimal.
  destruct (read_digits_dash ds tl 0 0 Hd) as [v ->].
  by destruct (String.length ds).
Qed.

(** A sign, digits and a dash make no numeric literal. *)
Lemma StringToNumber_digits_dash (ds tl : string) :
  all_digits ds = true → ds ≠ ""%string → trimmed (String "-" tl) →
  StringToNumber (ds ++ String "-" tl) = NaN
  ∧ StringToNumber (String "+" (ds ++ String "-" tl)) = NaN
  ∧ StringToNumber (String "-" (ds ++ String "-" tl)) = NaN.
Proof.
  intros Hd Hne Htl.
  pose proof (read_decimal_dash ds tl Hd) as Hdec.
  pose proof (trim_digits_dash ds _ Hd Hne Htl) as Htrim.
  assert (Htrim' : ∀ c, is_ws c = false →
            trim (String c (ds ++ String "-" tl)) = String c (ds ++ String "-" tl)).
  { intros c Hc. unfold trim. cbn [trim_start]. rewrite Hc.
    apply trimmed_cons, trimmed_app, Htl. }
  repeat split; unfold StringToNumber.
  - rewrite Htrim. clear Htrim Htrim'.
    destruct ds as [|c1 ds]; [done|]. cbn [all_digits] in Hd.
    apply andb_true_iff in Hd as [Hc1%bool_decide_eq_true Hd].
    rewrite !append_cons in *.
    assert (Hc2 : ∃ c2 r, (ds ++ String "-" tl)%string = String c2 r
                          ∧ (is_Some (dec_digit c2) ∨ c2 = "-"%char)).
    { destruct ds as [|c2 ds]; [rewrite append_nil_l; by eauto|].
      rewrite append_cons.
      cbn [all_digits] in Hd.
      apply andb_true_iff in Hd as [Hc2%bool_decide_eq_true _]. eauto. }
    destruct Hc2 as (c2 & r & Hr & Hc2). rewrite Hr in *.
    destruct c1 as [[] [] [] [] [] [] [] []]; try (by destruct Hc1);
      cbn [read_sign String.eqb Ascii.eqb Bool.eqb]; rewrite ?Hdec; try done.
    destruct c2 as [[] [] [] [] [] [] [] []];
      try (by destruct Hc2 as [[? ?]|?]);
      cbn [read_sign String.eqb Ascii.eqb Bool.eqb]; rewrite ?Hdec; done.
  - rewrite Htrim' by done. cbn [read_sign String.eqb Ascii.eqb Bool.eqb].
    destruct ds as [|c1 ds]; [done|]. cbn [all_digits] in Hd.
    apply andb_true_iff in Hd as [Hc1%bool_decide_eq_true Hd].
    rewrite !append_cons in *. rewrite Hdec.
    destruct c1 as [[] [] [] [] [] [] [] []]; try (by destruct Hc1); done.
  - rewrite Htrim' by done. cbn [read_sign String.eqb Ascii.eqb Bool.eqb].
    destruct ds as [|c1 ds]; [done|]. cbn [all_digits] in Hd.
    apply andb_true_iff in Hd as [Hc1%bool_decide_eq_true Hd].
    rewrite !append_cons in *. rewrite Hdec.
    destruct c1 as [[] [] [] [] [] [] [] []]; try (by destruct Hc1); done.
Qed.

Lemma toISOString_NaN (t : Z) : StringToNumber (toISOString t) = NaN.
Proof.
  unfold toISOString.
  destruct (civil_from_days (t / 86400000)) as [[y m] d]. cbv zeta.
  rewrite !append_cons, !append_nil_l.
  match goal with
  | |- StringToNumber (_ ++ String "-" ?s) = _ =>
      assert (Htl : trimmed (String "-" s))
        by (repeat first [ by split | apply trimmed_app | apply trimmed_cons ]);
      generalize dependent s
  end.
  intros tl Htl.
  destruct ((0 <=? y)%Z && (y <=? 9999)%Z) eqn:Hy.
  - apply andb_true_iff in Hy as [Hy%Z.leb_le _].
    destruct (pad_digits 4 y Hy) as [Hd Hne].
    apply (StringToNumber_digits_dash _ _ Hd Hne Htl).
  - destruct (pad_digits 6 (Z.abs y) (Z.abs_nonneg y)) as [Hd Hne].
    destruct (y <? 0)%Z; rewrite append_cons, append_nil_l, append_cons;
      apply (StringToNumber_digits_dash _ _ Hd Hne Htl).
Qed.

(* ================================================================== *)
(** ** Page and page size *)
(* ================================================================== *)

Lemma pageNum_cases (qry : query) :
  pageNum qry = PosInf ∨ ∃ p, (1 <= p)%Z ∧ pageNum qry = of_Z p.
Proof.
  unfold pageNum.
  destruct (parseInt_cases (default (page qry) "1"))
    as [-> | [-> | [-> | [z ->]]]].
  - right. by exists 1%Z.
  - by left.
  - right. by exists 1%Z.
  - right. unfold num_or. rewrite num_truthy_of_Z.
    destruct (Z.eqb_spec z 0) as [->|Hz]; cbn [negb].
    + by exists 1%Z.
    + rewrite Math_max_of_Z. exists (Z.max z 1). split; [lia|done].
Qed.

Lemma sizeNum_of_parse (qry : query) :
  match parseInt (default (pageSize qry) "20") with
  | NaN => sizeNum qry = of_Z 20
  | PosInf => sizeNum qry = of_Z 100
  | NegInf => sizeNum qry = of_Z 1
  | Fin x =>
      ∀ z, x = inject_Z z →
           sizeNum qry = of_Z (if (z =? 0)%Z then 20 else clamp_1_100 z)
  end.
Proof.
  unfold sizeNum.
  destruct (parseInt (default (pageSize qry) "20")) as [| | |x]; try done.
  intros z ->. fold (of_Z z). unfold num_or. rewrite num_truthy_of_Z.
  destruct (Z.eqb_spec z 0) as [->|Hz]; cbn [negb]; [done|].
  by rewrite Math_max_of_Z, Math_min_of_Z.
Qed.

Lemma sizeNum_range (qry : query) :
  ∃ n, (1 <= n <= 100)%Z ∧ sizeNum qry = of_Z n.
Proof.
  pose proof (sizeNum_of_parse qry) as Hs.
  destruct (parseInt_cases (default (pageSize qry) "20"))
    as [E | [E | [E | [z E]]]]; rewrite E in Hs.
  - by exists 20%Z.
  - by exists 100%Z.
  - by exists 1%Z.
  - specialize (Hs z eq_refl). rewrite Hs.
    destruct (z =? 0)%Z; eexists; (split; [|done]); unfold clamp_1_100; lia.
Qed.

(** C4, as the code has it.  The effective page is the parsed page clamped
    to a minimum of 1 and is 1 when parsing fails: a positive integer, or
    [Infinity] when the digits leave the range of numbers.  The effective
    page size is an integer of [[1, 100]] for every input: the parsed page
    size clamped to [[1, 100]] when it is an integer other than zero, and
    the default 20 when parsing fails or yields zero. *)
Theorem page_and_pageSize_normalised (qry : query) :
  (pageNum qry = PosInf ∨ ∃ p, (1 <= p)%Z ∧ pageNum qry = of_Z p)
  ∧ (page qry = None → pageNum qry = of_Z 1)
  ∧ (parseInt (default (page qry) "1") = NaN → pageNum qry = of_Z 1)
  ∧ (∀ z, parseInt (default (page qry) "1") = of_Z z →
          pageNum qry = of_Z (Z.max z 1))
  ∧ (∃ n, (1 <= n <= 100)%Z ∧ sizeNum qry = of_Z n)
  ∧ (pageSize qry = None → sizeNum qry = of_Z 20)
  ∧ (parseInt (default (pageSize qry) "20") = NaN → sizeNum qry = of_Z 20)
  ∧ (parseInt (default (pageSize qry) "20") = of_Z 0 → sizeNum qry = of_Z 20)
  ∧ (∀ z, parseInt (default (pageSize qry) "20") = of_Z z → z ≠ 0%Z →
          sizeNum qry = of_Z (clamp_1_100 z)).
Proof.
  split; [apply pageNum_cases|].
  split; [by unfold pageNum; intros ->|].
  split; [by unfold pageNum; intros ->|].
  split.
  { intros z Hz. unfold pageNum, num_or. rewrite Hz, num_truthy_of_Z.
    destruct (Z.eqb_spec z 0) as [->|Hnz]; cbn [negb]; [done|].
    apply Math_max_of_Z. }
  split; [apply sizeNum_range|].
  pose proof (sizeNum_of_parse qry) as Hs.
  split; [by unfold sizeNum; intros ->|].
  split; [by intros E; rewrite E in Hs|].
  split; [intros E; rewrite E in Hs; apply (Hs 0%Z eq_refl)|].
  intros z E Hz. rewrite E in Hs. rewrite (Hs z eq_refl).
  by destruct (Z.eqb_spec z 0).
Qed.

(** The statement above at [page=-3&pageSize=250]. *)
Lemma page_and_pageSize_normalised_witness :
  let qry := {|
    q := None; minPrice := None; maxPrice := None;
    minYield := None; maxYield := None; sortBy := None; order := None;
    page := Some "-3"; pageSize := Some "250" |} in
  pageNum qry = of_Z 1 ∧ sizeNum qry = of_Z 100.
Proof.
  intros qry.
  destruct (page_and_pageSize_normalised qry)
    as (_ & _ & _ & Hpage & _ & _ & _ & _ & Hsize).
  split.
  - apply (Hpage (-3)%Z). reflexivity.
  - apply (Hsize 250%Z); [reflexivity|lia].
Defined.

(** A page of four hundred digits is beyond the range of numbers. *)
Example pageNum_infinite :
  pageNum (with_page (Some (String.concat "" (repeat "9"%string 400))) no_query)
  = PosInf.
Proof. vm_compute. reflexivity. Qed.

Example sizeNum_samples :
  map (λ s, sizeNum {|
         q := None; minPrice := None; maxPrice := None;
         minYield := None; maxYield := None; sortBy := None; order := None;
         page := None; pageSize := Some s |})
      ["250"; "-5"; "abc"; ""; "7.9"; " 12px"; "0"]%string
  = map of_Z [100; 1; 20; 20; 7; 12; 20]%Z.
Proof. vm_compute. reflexivity. Qed.

(** C4 as stated fails: [pageSize=0] parses as the integer 0, whose clamp
    to [[1, 100]] is 1, and the effective page size is 20. *)
Lemma pageSize_zero_is_not_clamped :
  let qry := {|
    q := None; minPrice := None; maxPrice := None;
    minYield := None; maxYield := None; sortBy := None; order := None;
    page := None; pageSize := Some "0" |} in
  parseInt "0" = of_Z 0
  ∧ sizeNum qry = of_Z 20
  ∧ sizeNum qry ≠ of_Z (clamp_1_100 0).
Proof.
  intros qry. split; [reflexivity|]. split; [reflexivity|].
  intros E. vm_compute in E. discriminate.
Qed.

(* ================================================================== *)
(** ** Range parameters *)
(* ================================================================== *)

Section Ranges.
Context `{Host}.

Lemma truthy_false (p : option string) :
  truthy p = false → p = None ∨ p = Some ""%string.
Proof.
  destruct p as [s|]; [|by left]. cbn [truthy].
  destruct (String.eqb_spec s ""); [subst; by right|done].
Qed.

Lemma filter_none {A : Type} (f : A → bool) (l : list A) :
  (∀ x, f x = false) → List.filter f l = [].
Proof.
  intros Hf. induction l as [|x l IH]; [done|].
  cbn [List.filter]. by rewrite Hf.
Qed.

Lemma apply_range_nil (field : property → value) (r : option range) :
  apply_range field r [] = [].
Proof. destruct r as [[[n|] [m|]]|]; done. Qed.

(** No record passes a bound that is [NaN]. *)
Lemma apply_range_NaN (field : property → value) (r : range)
    (lst : list property) :
  gte r = Some NaN ∨ lte r = Some NaN →
  apply_range field (Some r) lst = [].
Proof.
  intros Hr. unfold apply_range. destruct r as [lo hi]; cbn [gte lte] in *.
  destruct Hr as [-> | ->].
  - rewrite (filter_none (λ x, num_ge _ NaN)) by (intros; apply num_le_NaN_l).
    by destruct hi.
  - apply filter_none. intros; apply num_le_NaN_r.
Qed.

Lemma handle_get_empty (qry : query) (memory : list property) :
  (∀ lst, apply_regex (filter_location (build_filter qry)) memory = Return lst →
          select (build_filter qry) memory = Return []) →
  handle_get qry memory
  = match apply_regex (filter_location (build_filter qry)) memory with
    | Return _ => Json 200 (Page [] 0 (pageNum qry) (sizeNum qry))
    | Throw e => Json 500 (Failure (Thrown e))
    end.
Proof.
  intros Hsel. unfold handle_get.
  destruct (apply_regex _ memory) as [lst|e] eqn:Hrx.
  - rewrite (Hsel lst eq_refl). cbn [bind]. unfold sorted; cbn [sort].
    by rewrite slice_nil.
  - unfold select. by rewrite Hrx.
Qed.

(** C1, as the code has it.  A range parameter that is missing or empty
    is an absent bound: the answer is the answer to the query without
    it.  A parameter that is not empty and does not parse as a number is
    not absent: it is a bound, [NaN], that no record passes.  On a store
    whose prices, locations and yields are no objects (the conversion of
    an object can throw), the read then answers 200 with no item and a
    total of 0, or 500 when its text filter is no pattern, as it does
    without the parameter. *)
Theorem range_parameter_absent_or_NaN (b : bound_param) (qry : query)
    (memory : list property) :
  (truthy (param b qry) = false →
   handle_get qry memory = handle_get (with_param b None qry) memory)
  ∧ (∀ s, param b qry = Some s → s ≠ ""%string → Number (VStr s) = NaN →
      Forall (λ x, scalar_fields x = true) memory →
      handle_get qry memory
      = if pattern_ok qry
        then Json 200 (Page [] 0 (pageNum qry) (sizeNum qry))
        else Json 500 (Failure (Thrown SyntaxError))).
Proof.
  split.
  - intros [Hp|Hp]%truthy_false;
      destruct b, qry; simpl in Hp; subst; reflexivity.
  - intros s Hp Hs HNaN _. rewrite handle_get_empty.
    { unfold pattern_ok, apply_regex.
      destruct (filter_location (build_filter qry)) as [src|]; [|done].
      by destruct (RegExp_i src). }
    intros lst Hrx.
    unfold select. rewrite Hrx; cbn [bind]. f_equal.
    assert (Ht : truthy (Some s) = true).
    { cbn [truthy]. by destruct (String.eqb_spec s ""). }
    assert (Hb : bound (Some s) = Some NaN).
    { unfold bound. by rewrite Ht, HNaN. }
    destruct b; cbn [param] in Hp; unfold build_filter, build_range;
      cbn [filter_price filter_rentalYield]; rewrite Hp, Ht, ?orb_true_r;
      cbn [orb].
    + rewrite apply_range_NaN by (left; apply Hb). apply apply_range_nil.
    + rewrite apply_range_NaN by (right; apply Hb). apply apply_range_nil.
    + apply apply_range_NaN. left; apply Hb.
    + apply apply_range_NaN. right; apply Hb.
Qed.
End Ranges.

(** The statement above at [minPrice=], at [maxYield=high] and at
    [q=(&minPrice=abc], on the sample store. *)
Lemma range_parameter_absent_or_NaN_witness :
  let H := Plain.host in
  let empty := with_param MinPrice (Some ""%string) no_query in
  let high := with_param MaxYield (Some "high"%string) no_query in
  let both := {|
    q := Some "("%string; minPrice := Some "abc"%string; maxPrice := None;
    minYield := None; maxYield := None;
    sortBy := None; order := None; page := None; pageSize := None |} in
  handle_get empty sample_store = handle_get no_query sample_store
  ∧ handle_get high sample_store = Json 200 (Page [] 0 (of_Z 1) (of_Z 20))
  ∧ handle_get both sample_store = Json 500 (Failure (Thrown SyntaxError)).
Proof.
  intros H empty high both.
  assert (Hscalar : Forall (λ x, scalar_fields x = true) sample_store).
  { apply (bool_decide_unpack _). vm_compute. exact I. }
  split; [|split].
  - apply (proj1 (range_parameter_absent_or_NaN MinPrice empty sample_store)).
    reflexivity.
  - apply (proj2 (range_parameter_absent_or_NaN MaxYield high sample_store)
             "high"%string); [reflexivity|discriminate|reflexivity|exact Hscalar].
  - refine (eq_trans
              (proj2 (range_parameter_absent_or_NaN MinPrice both sample_store)
                 "abc"%string _ _ _ Hscalar) _);
      [reflexivity|discriminate|reflexivity|reflexivity].
Defined.

(** C1 as stated fails: [minPrice=abc] does not parse as a number, and the
    query with it excludes every record, where the query without it
    returns them all. *)
Lemma nonnumeric_bound_excludes_all :
  let H := Plain.host in
  let qry := with_param MinPrice (Some "abc"%string) no_query in
  Number (VStr "abc") = NaN
  ∧ handle_get qry sample_store = Json 200 (Page [] 0 (of_Z 1) (of_Z 20))
  ∧ handle_get (with_param MinPrice None qry) sample_store
    = Json 200 (Page sample_store 3 (of_Z 1) (of_Z 20))
  ∧ handle_get qry sample_store
    ≠ handle_get (with_param MinPrice None qry) sample_store.
Proof. vm_compute. repeat split. discriminate. Qed.

(* ================================================================== *)
(** ** The filters as one condition *)
(* ================================================================== *)

Lemma List_filter_filter {A : Type} (f g : A → bool) (l : list A) :
  List.filter f (List.filter g l) = List.filter (λ x, g x && f x) l.
Proof.
  induction l as [|x l IH]; [done|]. cbn [List.filter].
  destruct (g x); cbn [List.filter andb]; [|done]. by rewrite IH.
Qed.

Lemma apply_range_in_range (field : property → value) (r : option range)
    (l : list property) :
  apply_range field r l = List.filter (in_range field r) l.
Proof.
  destruct r as [[lo hi]|]; unfold apply_range, in_range; cbn [gte lte].
  - destruct lo as [n|], hi as [m|].
    + apply List_filter_filter.
    + apply List.filter_ext. intros x. by rewrite andb_true_r.
    + done.
    + symmetry. apply filter_true.
  - symmetry. apply filter_true.
Qed.

Section OneCondition.
Context `{Host}.

(** The three filtering steps keep exactly the records that meet every
    condition of the query, in the order of the store. *)
Lemma select_matches (qry : query) (memory filtered : list property) :
  select (build_filter qry) memory = Return filtered →
  filtered = List.filter (matches qry) memory.
Proof.
  unfold select, apply_regex, matches.
  destruct (filter_location (build_filter qry)) as [s|].
  - destruct (RegExp_i s) as [test|]; cbn [bind]; [|done].
    intros [= <-]. rewrite !apply_range_in_range, !List_filter_filter.
    apply List.filter_ext. intros x. by rewrite andb_assoc.
  - cbn [bind]. intros [= <-].
    by rewrite !apply_range_in_range, List_filter_filter.
Qed.

(** The condition the filter object carries is the one read off the
    parameters. *)
Lemma matches_passes (qry : query) (x : property) :
  matches qry x = passes qry x.
Proof.
  unfold matches, passes, within, in_range, build_filter, build_range, bound,
    truthy.
  cbn [filter_location filter_price filter_rentalYield].
  destruct (q qry) as [s|], (minPrice qry) as [a|], (maxPrice qry) as [b|],
    (minYield qry) as [c|], (maxYield qry) as [d|];
    repeat match goal with
      | |- context [String.eqb ?t ""] => destruct (String.eqb t "")
      end;
    cbn [negb orb andb gte lte]; rewrite ?andb_true_r; reflexivity.
Qed.

Lemma filter_matches_passes (qry : query) (l : list property) :
  List.filter (matches qry) l = List.filter (passes qry) l.
Proof. apply List.filter_ext. intros x. apply matches_passes. Qed.
End OneCondition.

(* ================================================================== *)
(** ** Pagination *)
(* ================================================================== *)

Section Pagination.
Context `{Host}.

(** What a successful read has computed. *)
Lemma handle_get_200 (qry : query) (memory items : list property)
    (total : nat) (pg sz : num) :
  handle_get qry memory = Json 200 (Page items total pg sz) →
  ∃ filtered lst,
    select (build_filter qry) memory = Return filtered
    ∧ sorted qry filtered = Return lst
    ∧ pg = pageNum qry ∧ sz = sizeNum qry ∧ total = length lst
    ∧ items = slice lst (num_mul (num_sub pg (of_Z 1)) sz)
                    (num_add (num_mul (num_sub pg (of_Z 1)) sz) sz).
Proof.
  unfold handle_get; cbv zeta.
  destruct (select (build_filter qry) memory) as [filtered|e] eqn:Hsel;
    cbn [bind]; [|done].
  destruct (sorted qry filtered) as [lst|e] eqn:Hsort; [|done].
  intros E. injection E as <- <- <- <-. by exists filtered, lst.
Qed.

Lemma select_length (f : filter_spec) (memory filtered : list property) :
  select f memory = Return filtered → length filtered ≤ length memory.
Proof.
  assert (Hr : ∀ field r l, length (apply_range field r l) ≤ length l).
  { intros field [[lo hi]|] l; cbn [apply_range gte lte]; [|done].
    destruct lo, hi; repeat (etrans; [apply List.filter_length_le|]); done. }
  unfold select, apply_regex.
  destruct (filter_location f) as [s|]; [destruct (RegExp_i s)|];
    cbn [bind]; try done; intros [= <-];
    (etrans; [apply Hr|]); (etrans; [apply Hr|]);
    [apply List.filter_length_le|done].
Qed.

Lemma Forall_List_filter {A : Type} (P : A → Prop) (f : A → bool)
    (l : list A) :
  Forall P l → Forall P (List.filter f l).
Proof.
  induction 1 as [|x l Hx Hl IH]; cbn [List.filter]; [done|].
  destruct (f x); [by constructor|done].
Qed.

(** What passes the filters was in the store. *)
Lemma select_Forall (P : property → Prop) (f : filter_spec)
    (memory filtered : list property) :
  select f memory = Return filtered → Forall P memory → Forall P filtered.
Proof.
  assert (Hr : ∀ field r l, Forall P l → Forall P (apply_range field r l)).
  { intros field [[lo hi]|] l Hl; cbn [apply_range gte lte]; [|done].
    destruct lo, hi; repeat apply Forall_List_filter; done. }
  unfold select, apply_regex. intros Hsel HP.
  destruct (filter_location f) as [s|]; [destruct (RegExp_i s)|];
    cbn [bind] in Hsel; try done; injection Hsel as <-;
    repeat apply Hr; [by apply Forall_List_filter|done].
Qed.

(** C3.  When a read answers, its items are at most the effective page
    size; its total is the number of records of the store that pass the
    filters ([passes]: the text filter and every bound given, read off
    the parameters), whatever the page asked for; and its items are the
    window of that many elements of the sorted filtered list from index
    [(page - 1) * pageSize] on (an empty one when the page is
    [Infinity]). *)
Theorem pagination_window (qry : query) (memory items : list property)
    (total : nat) (pg sz : num) :
  is_array memory →
  handle_get qry memory = Json 200 (Page items total pg sz) →
  ∃ (filtered lst : list property) (n : Z),
    select (build_filter qry) memory = Return filtered
    ∧ filtered = List.filter (passes qry) memory
    ∧ sorted qry filtered = Return lst
    ∧ lst ≡ₚ filtered
    ∧ sz = of_Z n ∧ (1 <= n <= 100)%Z
    ∧ length items ≤ Z.to_nat n
    ∧ total = length (List.filter (passes qry) memory)
    ∧ (∀ p', ∃ items' pg',
          handle_get (with_page p' qry) memory
          = Json 200 (Page items' total pg' sz))
    ∧ (∀ p, pg = of_Z p →
            items = take (Z.to_nat n) (drop (Z.to_nat ((p - 1) * n)) lst))
    ∧ (pg = PosInf → items = []).
Proof.
  intros Harr (filtered & lst & Hsel & Hsort & -> & -> & -> & ->)%handle_get_200.
  destruct (sizeNum_range qry) as (n & Hn & Hsz).
  pose proof (sort_perm _ _ _ Hsort) as Hperm.
  assert (Hlen : (Z.of_nat (length lst) < 4294967296)%Z).
  { rewrite Hperm. apply select_length in Hsel. unfold is_array in Harr. lia. }
  assert (Hwin : ∀ p, pageNum qry = of_Z p →
    slice lst (num_mul (num_sub (pageNum qry) (of_Z 1)) (sizeNum qry))
      (num_add (num_mul (num_sub (pageNum qry) (of_Z 1)) (sizeNum qry))
               (sizeNum qry))
    = take (Z.to_nat n) (drop (Z.to_nat ((p - 1) * n)) lst)).
  { intros p Hp. rewrite Hp, Hsz. apply slice_page; [done| |done].
    destruct (pageNum_cases qry) as [E|(p' & Hp' & E)]; rewrite E in Hp;
      [done|]. injection Hp as Hp. lia. }
  assert (Hinf : pageNum qry = PosInf →
    slice lst (num_mul (num_sub (pageNum qry) (of_Z 1)) (sizeNum qry))
      (num_add (num_mul (num_sub (pageNum qry) (of_Z 1)) (sizeNum qry))
               (sizeNum qry)) = []).
  { intros ->. rewrite Hsz. cbn [num_sub num_neg of_Z num_add].
    fold (of_Z n). rewrite num_mul_PosInf_pos by lia. apply slice_from_end. }
  assert (Hpass : filtered = List.filter (passes qry) memory).
  { rewrite <- filter_matches_passes. by apply select_matches. }
  exists filtered, lst, n. repeat split; try done.
  - lia.
  - lia.
  - destruct (pageNum_cases qry) as [E|(p & _ & E)].
    + rewrite (Hinf E). cbn [length]. lia.
    + rewrite (Hwin p E), length_take. lia.
  - by rewrite Hperm, Hpass.
  - intros p'. unfold handle_get.
    replace (build_filter (with_page p' qry)) with (build_filter qry)
      by by destruct qry.
    rewrite Hsel; cbn [bind].
    replace (sorted (with_page p' qry) filtered) with (sorted qry filtered)
      by by destruct qry.
    rewrite Hsort.
    replace (sizeNum (with_page p' qry)) with (sizeNum qry) by by destruct qry.
    eauto.
Qed.
End Pagination.

(** The statement above for the second page of size 1 of the records of
    the sample store located in Paris and priced 900 at least, by
    price. *)
Lemma pagination_window_witness :
  let H := Plain.host in
  let qry := {|
    q := Some "paris"%string; minPrice := Some "900"%string; maxPrice := None;
    minYield := None; maxYield := Some "5"%string;
    sortBy := Some "price"%string; order := Some "asc"%string;
    page := Some "2"%string; pageSize := Some "1"%string |} in
  ∃ item,
    handle_get qry sample_store = Json 200 (Page [item] 2 (of_Z 2) (of_Z 1))
    ∧ price item = VNum (of_Z 1500)
    ∧ ∃ (filtered lst : list property) (n : Z),
        select (build_filter qry) sample_store = Return filtered
        ∧ filtered = List.filter (passes qry) sample_store
        ∧ sorted qry filtered = Return lst
        ∧ lst ≡ₚ filtered
        ∧ of_Z 1 = of_Z n ∧ (1 <= n <= 100)%Z
        ∧ length [item] ≤ Z.to_nat n
        ∧ 2 = length (List.filter (passes qry) sample_store)
        ∧ (∀ p', ∃ items' pg',
              handle_get (with_page p' qry) sample_store
              = Json 200 (Page items' 2 pg' (of_Z 1)))
        ∧ (∀ p, of_Z 2 = of_Z p →
                [item] = take (Z.to_nat n) (drop (Z.to_nat ((p - 1) * n)) lst))
        ∧ (of_Z 2 = PosInf → [item] = []).
Proof.
  intros H qry. eexists. split; [vm_compute; reflexivity|].
  split; [reflexivity|].
  apply (pagination_window qry sample_store); [|vm_compute; reflexivity].
  unfold is_array. vm_compute. reflexivity.
Defined.

(* ================================================================== *)
(** ** Update *)
(* ================================================================== *)

(** C7.  An update whose id no stored record has answers 404 and leaves
    the store as it was. *)
Theorem put_unknown_id (id : string) (b : Body.t) (memory : list property) :
  Forall (λ x, _id x ≠ id) memory →
  handle_put id b memory = (Json 404 (Failure Not_found), memory).
Proof.
  intros Hid. unfold handle_put, findIndex.
  by rewrite (proj2 (list_find_None (λ x, _id x = id) memory) Hid).
Qed.

(** The statement above on the sample store. *)
Lemma put_unknown_id_witness :
  handle_put "42" lyon sample_store
  = (Json 404 (Failure Not_found), sample_store).
Proof.
  apply put_unknown_id. vm_compute.
  repeat (constructor; [discriminate|]). constructor.
Defined.

(** C9.  An update that answers 200 has found a record with the id it
    was given, the first of the store that has it, and has replaced it, in
    its place, by a record with the same [_id] and [createdAt] and the
    [price], [location] and [rentalYield] of the request body; every other
    element of the store is the one it was. *)
Theorem put_replaces_three_fields (id : string) (b : Body.t)
    (memory memory' : list property) (resp : response) :
  handle_put id b memory = (resp, memory') →
  status resp = 200%Z →
  ∃ (i : nat) (x x' : property),
    memory !! i = Some x
    ∧ _id x = id
    ∧ (∀ j y, j < i → memory !! j = Some y → _id y ≠ id)
    ∧ resp = Json 200 (One x')
    ∧ memory' !! i = Some x'
    ∧ _id x' = id ∧ createdAt x' = createdAt x
    ∧ price x' = Body.price b
    ∧ location x' = Body.location b
    ∧ rentalYield x' = Body.rentalYield b
    ∧ length memory' = length memory
    ∧ ∀ j, j ≠ i → memory' !! j = memory !! j.
Proof.
  unfold handle_put.
  destruct (findIndex id memory) as [[i x]|] eqn:Hfind.
  2:{ intros [= <- <-]. done. }
  intros [= <- <-] _.
  apply list_find_Some in Hfind as (Hi & Hid & Hfirst).
  eexists i, x, _. repeat split; try done.
  - intros j y Hj Hy. by eapply Hfirst.
  - apply list_lookup_insert_eq. by eapply lookup_lt_Some.
  - apply length_insert.
  - intros j Hj. by apply list_lookup_insert_ne.
Qed.

(** The statement above for the middle record of the sample store. *)
Lemma put_replaces_three_fields_witness :
  ∃ (i : nat) (x x' : property),
    sample_store !! i = Some x
    ∧ _id x = "1700000060000"%string
    ∧ (∀ j y, j < i → sample_store !! j = Some y →
              _id y ≠ "1700000060000"%string)
    ∧ fst (handle_put "1700000060000" paris2 sample_store) = Json 200 (One x')
    ∧ snd (handle_put "1700000060000" paris2 sample_store) !! i = Some x'
    ∧ _id x' = "1700000060000"%string ∧ createdAt x' = createdAt x
    ∧ price x' = Body.price paris2
    ∧ location x' = Body.location paris2
    ∧ rentalYield x' = Body.rentalYield paris2
    ∧ length (snd (handle_put "1700000060000" paris2 sample_store))
      = length sample_store
    ∧ ∀ j, j ≠ i →
        snd (handle_put "1700000060000" paris2 sample_store) !! j
        = sample_store !! j.
Proof.
  apply (put_replaces_three_fields "1700000060000" paris2 sample_store).
  - apply surjective_pairing.
  - vm_compute. reflexivity.
Defined.

(* ================================================================== *)
(** ** Create, identifiers, delete *)
(* ================================================================== *)

Section Create.
Context `{Host}.

(** C5 at the request [POST /api/properties] with body [{}]: the answer
    is 201 and a record is stored, its price and yield [NaN] and its
    location the string "undefined".  No create answers 400. *)
Theorem create_accepts_missing_fields (c : clock) (memory : list property) :
  (∃ obj,
      handle_post c empty_body memory = (Json 201 (One obj), obj :: memory)
      ∧ price obj = VNum NaN
      ∧ location obj = VStr "undefined"
      ∧ rentalYield obj = VNum NaN)
  ∧ ∀ b, status (fst (handle_post c b memory)) = 201%Z
         ∧ length (snd (handle_post c b memory)) = S (length memory).
Proof. split; [by eexists|done]. Qed.

(** C6 at two creates that read the same millisecond off the clock: both
    answer 201, both records are in the store, and they have the same
    [_id]. *)
Theorem same_millisecond_same_id (t d1 d2 : Z) (b1 b2 : Body.t)
    (memory : list property) :
  ∃ x1 x2,
    run [POST {| Date_now := t; new_Date := d1 |} b1;
         POST {| Date_now := t; new_Date := d2 |} b2] memory
    = ([Json 201 (One x1); Json 201 (One x2)], x2 :: x1 :: memory)
    ∧ _id x2 = _id x1.
Proof. by eexists _, _. Qed.

(** C8 at two creates in the same millisecond followed by the delete of
    their id and a read: the delete answers 200 and the read still lists
    a record with the deleted id. *)
Theorem deleted_id_still_listed (t d1 d2 : Z) (b1 b2 : Body.t) :
  let id := String_ (VNum (of_Z t)) in
  ∃ x1 x2,
    run [POST {| Date_now := t; new_Date := d1 |} b1;
         POST {| Date_now := t; new_Date := d2 |} b2;
         DELETE id;
         GET no_query] []
    = ([Json 201 (One x1); Json 201 (One x2); Json 200 OkTrue;
        Json 200 (Page [x1] 1 (of_Z 1) (of_Z 20))], [x1])
    ∧ _id x1 = id.
Proof.
  intros id. eexists _, _. split.
  - cbn [run step handle_post]. unfold handle_delete, findIndex.
    cbn [list_find _id]. fold id. rewrite decide_True by done.
    reflexivity.
  - reflexivity.
Qed.
End Create.

(* ================================================================== *)
(** ** Identifiers *)
(* ================================================================== *)

Lemma Z_to_string_inj (a b : Z) : Z_to_string a = Z_to_string b → a = b.
Proof.
  assert (Hisi : ∀ z, NilZero.int_of_string (Z_to_string z) = Some (Z.to_int z)).
  { intros z. apply NilZero.isi; destruct z as [|p|p]; try done;
      cbn [Z.to_int]; intros [= Hp]; by apply (Unsigned.to_uint_nonnil p). }
  intros Hab. apply DecimalZ.to_int_inj.
  pose proof (Hisi a) as Ha. rewrite Hab, Hisi in Ha. by injection Ha.
Qed.

Section Identifiers.
Context `{Host}.

(** The identifier a create makes of a reading [t] of the clock is the
    decimal writing of [t]. *)
Lemma id_of_clock (t : Z) :
  (Z.abs t < 10 ^ 21)%Z → String_ (VNum (of_Z t)) = Z_to_string t.
Proof.
  intros Ht. unfold String_, num_to_string, of_Z.
  replace (is_integer (inject_Z t)) with true.
  2:{ unfold is_integer, inject_Z; cbn [Qnum Qden].
      by rewrite Z.mod_1_r. }
  change (Qabs (inject_Z t)) with (inject_Z (Z.abs t)).
  rewrite Qle_bool_inject.
  destruct (Z.leb_spec (Z.abs t) (10 ^ 21 - 1)); [|lia].
  cbn [andb inject_Z Qnum Qden]. by rewrite Z.div_1_r.
Qed.

(** X21.  The id a create answers is never empty, and two creates answer
    the same id exactly when they read the same millisecond off the
    clock. *)
Lemma id_nonempty_and_clock (c1 c2 : clock) (b1 b2 : Body.t)
    (m1 m2 : list property) (x1 x2 : property) :
  (Z.abs (Date_now c1) < 10 ^ 21)%Z → (Z.abs (Date_now c2) < 10 ^ 21)%Z →
  fst (handle_post c1 b1 m1) = Json 201 (One x1) →
  fst (handle_post c2 b2 m2) = Json 201 (One x2) →
  _id x1 ≠ ""%string ∧ (_id x1 = _id x2 ↔ Date_now c1 = Date_now c2).
Proof.
  intros H1 H2 E1 E2. unfold handle_post in E1, E2; cbn [fst] in E1, E2.
  rewrite id_of_clock in E1, E2 by done.
  injection E1 as <-. injection E2 as <-. cbn [_id]. split.
  - intros Hempty. pose proof (Z_to_string_inj (Date_now c1) 0) as Hinj.
    unfold Z_to_string in *. destruct (Date_now c1) as [|p|p]; try done.
    cbn [Z.to_int NilZero.string_of_int] in Hempty.
    pose proof (Unsigned.to_uint_nonnil p).
    unfold NilZero.string_of_uint in Hempty. by destruct (Pos.to_uint p).
  - split; [apply Z_to_string_inj|by intros ->].
Qed.
End Identifiers.

(* ================================================================== *)
(** ** Delete, where identifiers are unique *)
(* ================================================================== *)

Section UniqueIds.
Context `{Host}.

(** The items of a read are records of the store. *)
Lemma items_from_store (P : property → Prop) (qry : query)
    (memory items : list property) (total : nat) (pg sz : num) :
  handle_get qry memory = Json 200 (Page items total pg sz) →
  Forall P memory → Forall P items.
Proof.
  intros (filtered & lst & Hsel & Hsort & -> & -> & -> & ->)%handle_get_200 HP.
  pose proof (select_Forall _ _ _ _ Hsel HP) as Hfiltered.
  apply sort_perm in Hsort. rewrite <- Hsort in Hfiltered.
  unfold slice. by apply Forall_take, Forall_drop.
Qed.

(** X22.  In a store without two records of the same id, a delete that
    answers 200 leaves no record with the id, and no read that follows
    lists one. *)
Lemma deleted_id_gone_when_unique (id : string)
    (memory memory' : list property) :
  NoDup (_id <$> memory) →
  handle_delete id memory = (Json 200 OkTrue, memory') →
  Forall (λ x, _id x ≠ id) memory'
  ∧ ∀ qry items total pg sz,
      handle_get qry memory' = Json 200 (Page items total pg sz) →
      Forall (λ x, _id x ≠ id) items.
Proof.
  intros Hnd. unfold handle_delete.
  destruct (findIndex id memory) as [[i x]|] eqn:Hfind; [|done].
  intros [= <-].
  assert (Hgone : Forall (λ y, _id y ≠ id) (delete i memory)).
  { apply list_find_Some in Hfind as (Hi & Hid & _).
    rewrite <- (take_drop_middle _ _ _ Hi), fmap_app, fmap_cons in Hnd.
    apply NoDup_app in Hnd as (_ & Hl & [Hr _]%NoDup_cons).
    rewrite delete_take_drop. apply Forall_app. split; apply Forall_forall.
    - intros y Hy Heq. apply (Hl (_id y)); [by apply list_elem_of_fmap_2|].
      rewrite Heq, <- Hid. left.
    - intros y Hy Heq. apply Hr. rewrite Hid, <- Heq.
      by apply list_elem_of_fmap_2. }
  split; [done|]. intros qry items total pg sz Hget.
  by eapply items_from_store.
Qed.
End UniqueIds.

(* ================================================================== *)
(** ** Sorting *)
(* ================================================================== *)

Section Sorting.
Context `{Host}.

(** The difference of two [createdAt] that are no numbers is [NaN]. *)
Lemma comparator_createdAt (ord : string) (a b : property) :
  StringToNumber (createdAt a) = NaN →
  comparator "createdAt" ord a b = Return NaN.
Proof.
  intros Ha. unfold comparator; cbn [String.eqb Ascii.eqb Bool.eqb].
  unfold get; cbn [String.eqb Ascii.eqb Bool.eqb nullish Number].
  rewrite Ha. unfold directed. by destruct (String.eqb ord "asc").
Qed.

(** Sorted by [createdAt], in either order, a store whose [createdAt]
    are no numbers comes back as it is. *)
Lemma handle_get_by_createdAt (ord : string) (memory : list property) :
  is_array memory →
  Forall (λ x, StringToNumber (createdAt x) = NaN) memory →
  handle_get (by_createdAt ord) memory
  = Json 200 (Page (take 20 memory) (length memory) (of_Z 1) (of_Z 20)).
Proof.
  intros Harr Hiso. unfold handle_get.
  change (select (build_filter (by_createdAt ord)) memory)
    with (Return memory); cbn [bind].
  unfold sorted; cbn [by_createdAt sortBy order default].
  rewrite (sort_neutral_on _ (λ x, StringToNumber (createdAt x) = NaN)); [|
    intros a b Ha _; rewrite comparator_createdAt by done; by eexists|done].
  change (pageNum (by_createdAt ord)) with (of_Z 1).
  change (sizeNum (by_createdAt ord)) with (of_Z 20).
  by rewrite (slice_page memory 1 20).
Qed.

(** C2 at two creates a minute apart followed by a read sorted by
    [createdAt] in ascending order: [createdAt] is an ISO string, the
    difference of two of them is [NaN], nothing moves, and the read lists
    the later record first, exactly as the descending read does. *)
Theorem createdAt_ascending_lists_newest_first (b1 b2 : Body.t) :
  ∃ x1 x2,
    run [POST (at_ 1700000000000) b1;
         POST (at_ 1700000060000) b2;
         GET (by_createdAt "asc");
         GET (by_createdAt "desc")] []
    = ([Json 201 (One x1); Json 201 (One x2);
        Json 200 (Page [x2; x1] 2 (of_Z 1) (of_Z 20));
        Json 200 (Page [x2; x1] 2 (of_Z 1) (of_Z 20))], [x2; x1])
    ∧ createdAt x1 = "2023-11-14T22:13:20.000Z"%string
    ∧ createdAt x2 = "2023-11-14T22:14:20.000Z"%string
    ∧ comparator "createdAt" "asc" x2 x1 = Return NaN.
Proof.
  eexists _, _. split; [|split; [|split]].
  - cbn [run step handle_post].
    rewrite !handle_get_by_createdAt;
      [reflexivity| | | |]; try (unfold is_array; cbn [length]; lia);
      repeat (constructor; [vm_compute; reflexivity|]); constructor.
  - vm_compute. reflexivity.
  - vm_compute. reflexivity.
  - apply comparator_createdAt. vm_compute. reflexivity.
Qed.

(** A member of [Object.prototype] is no number. *)
Lemma Object_prototype_NaN (key : string) :
  Object_prototype key = VUndef
  ∨ ∃ s, Object_prototype key = VObj s ∧ StringToNumber s = NaN.
Proof.
  unfold Object_prototype.
  destruct (String.eqb key "__proto__"); [right; by eexists|].
  destruct (String.eqb key "constructor"); [right; by eexists|].
  cbn [existsb].
  repeat match goal with
    | |- context [String.eqb key ?s] =>
        destruct (String.eqb_spec key s) as [->|_];
        [right; eexists; split; [reflexivity|vm_compute; reflexivity]|]
    end.
  by left.
Qed.

Lemma get_not_own (x : property) (key : string) :
  own_key key = false → get x key = Object_prototype key.
Proof.
  unfold own_key, get; cbn [existsb]. intros Hk.
  repeat match type of Hk with
    | (String.eqb key ?s || _) = false =>
        apply orb_false_iff in Hk as [-> Hk]
    end.
  done.
Qed.

(** On a key that is no field of the records, the comparison function
    answers zero, or [NaN] which counts as zero. *)
Lemma comparator_not_own (key ord : string) (a b : property) :
  own_key key = false →
  comparator key ord a b
  = Return (match Object_prototype key with
            | VUndef => of_Z 0
            | _ => NaN
            end).
Proof.
  intros Hk. unfold comparator.
  replace (String.eqb key "location") with false.
  2:{ unfold own_key in Hk; cbn [existsb] in Hk.
      repeat (apply orb_false_iff in Hk as [? Hk]). done. }
  rewrite !get_not_own by done.
  destruct (Object_prototype_NaN key) as [->|(s & -> & Hs)].
  - unfold directed. by destruct (String.eqb ord "asc").
  - cbn [nullish Number]. rewrite Hs.
    unfold directed. by destruct (String.eqb ord "asc").
Qed.

(** C10, as the code has it.  A read sorted by a key other than [_id],
    [price], [location], [rentalYield] and [createdAt] does not fail in
    the sort: the comparison function answers 0 on every pair when no
    record has the key (the lookups are [undefined], taken as 0) and
    [NaN], which the sort takes as 0, when the key names a member
    inherited from [Object.prototype]; the sort returns the filtered list
    as it is, which is in the order of the store, where a create puts
    the new record first. *)
Theorem unknown_sort_key_keeps_order (key : string) (qry : query)
    (memory : list property) :
  sortBy qry = Some key →
  own_key key = false →
  (∀ a b, comparator key (default (order qry) "desc") a b
          = Return (match Object_prototype key with
                    | VUndef => of_Z 0
                    | _ => NaN
                    end))
  ∧ (∀ lst, sorted qry lst = Return lst)
  ∧ handle_get qry memory
    = match select (build_filter qry) memory with
      | Return lst =>
          let start :=
            num_mul (num_sub (pageNum qry) (of_Z 1)) (sizeNum qry) in
          Json 200 (Page (slice lst start (num_add start (sizeNum qry)))
                         (length lst) (pageNum qry) (sizeNum qry))
      | Throw e => Json 500 (Failure (Thrown e))
      end
  ∧ (∀ c b, ∃ obj, snd (handle_post c b memory) = obj :: memory).
Proof.
  intros Hkey Hown.
  assert (Hsorted : ∀ lst, sorted qry lst = Return lst).
  { intros lst. unfold sorted. rewrite Hkey; cbn [default].
    apply sort_neutral. intros a b. rewrite comparator_not_own by done.
    eexists; split; [done|]. by destruct (Object_prototype key). }
  repeat split.
  - intros a b. by apply comparator_not_own.
  - done.
  - unfold handle_get.
    destruct (select (build_filter qry) memory) as [lst|e]; cbn [bind];
      [|done]. by rewrite Hsorted.
  - intros c b. by eexists.
Qed.
End Sorting.

(** The statement above at [sortBy=surface&order=asc] on the sample
    store. *)
Lemma unknown_sort_key_keeps_order_witness :
  let H := Plain.host in
  let qry := {|
    q := None; minPrice := None; maxPrice := None;
    minYield := None; maxYield := None;
    sortBy := Some "surface"%string; order := Some "asc"%string;
    page := None; pageSize := None |} in
  handle_get qry sample_store
  = Json 200 (Page sample_store 3 (of_Z 1) (of_Z 20))
  ∧ ∀ a b, comparator "surface" "asc" a b = Return (of_Z 0).
Proof.
  intros H qry.
  destruct (unknown_sort_key_keeps_order "surface" qry sample_store)
    as (Hcmp & _ & Hget & _); [reflexivity|reflexivity|].
  split; [|exact Hcmp].
  rewrite Hget. vm_compute. reflexivity.
Defined.

(** C10 as stated fails: [_id] is outside the four keys of the claim and
    every record has it; sorted by [_id] in ascending order the comparison
    function is not zero and the sample store comes back reversed. *)
Lemma sort_by_id_reverses :
  let H := Plain.host in
  let qry := {|
    q := None; minPrice := None; maxPrice := None;
    minYield := None; maxYield := None;
    sortBy := Some "_id"%string; order := Some "asc"%string;
    page := None; pageSize := None |} in
  handle_get qry sample_store
  = Json 200 (Page (rev sample_store) 3 (of_Z 1) (of_Z 20))
  ∧ rev sample_store ≠ sample_store
  ∧ ∃ x y rest,
      sample_store = x :: y :: rest
      ∧ comparator "_id" "asc" x y = Return (of_Z 60000).
Proof.
  intros H qry. split; [vm_compute; reflexivity|]. split.
  - vm_compute. discriminate.
  - eexists _, _, _. split.
    + vm_compute. reflexivity.
    + vm_compute. reflexivity.
Qed.

(* ================================================================== *)
(** ** Sorting by price *)
(* ================================================================== *)

Section NumericSort.
Context `{Host}.

(** X19.  Where every stored price is a number other than [NaN], the
    items of a read sorted by price are in the order asked for: each is
    at most the next for [order=asc], at least the next for
    [order=desc]. *)
Lemma price_in_order (qry : query) (memory items : list property)
    (total : nat) (pg sz : num) :
  sortBy qry = Some "price"%string →
  Forall (λ x, ∃ n, price x = VNum n ∧ is_NaN n = false) memory →
  handle_get qry memory = Json 200 (Page items total pg sz) →
  (order qry = Some "asc"%string →
   Sorted (λ x y, num_le (Number (price x)) (Number (price y)) = true) items)
  ∧ (order qry = Some "desc"%string →
     Sorted (λ x y, num_le (Number (price y)) (Number (price x)) = true) items).
Proof.
  intros Hkey Hnum (filtered & lst & Hsel & Hsort & -> & -> & -> & ->)%handle_get_200.
  pose proof (select_Forall _ _ _ _ Hsel Hnum) as Hfiltered.
  unfold sorted in Hsort. rewrite Hkey in Hsort; cbn [default] in Hsort.
  assert (Hcmp : ∀ ord a b n m,
    price a = VNum n → price b = VNum m →
    comparator "price" ord a b = Return (directed ord (num_sub n m))).
  { intros ord a b n m Ha Hb. unfold comparator, get.
    cbn [String.eqb Ascii.eqb Bool.eqb]. by rewrite Ha, Hb. }
  split; intros Hord; rewrite Hord in Hsort; cbn [default] in Hsort;
    apply Sorted_slice.
  - destruct (sort_Sorted (comparator "price" "asc")
                (λ x y, num_le (Number (price x)) (Number (price y)) = true)
                (λ x, ∃ n, price x = VNum n ∧ is_NaN n = false)) with filtered
      as (r & Hr & Hsorted & _); [|done|congruence].
    intros a b (n & Ha & Hn) (m & Hb & Hm).
    rewrite (Hcmp _ _ _ _ _ Ha Hb), Ha, Hb. eexists; split; [done|].
    cbn [Number directed String.eqb Ascii.eqb Bool.eqb].
    rewrite num_pos_sub by done. split.
    + by intros ?%negb_false_iff.
    + intros ?%negb_true_iff. by apply num_le_total.
  - destruct (sort_Sorted (comparator "price" "desc")
                (λ x y, num_le (Number (price y)) (Number (price x)) = true)
                (λ x, ∃ n, price x = VNum n ∧ is_NaN n = false)) with filtered
      as (r & Hr & Hsorted & _); [|done|congruence].
    intros a b (n & Ha & Hn) (m & Hb & Hm).
    rewrite (Hcmp _ _ _ _ _ Ha Hb), Ha, Hb. eexists; split; [done|].
    cbn [Number directed String.eqb Ascii.eqb Bool.eqb].
    replace (num_neg (num_sub n m)) with (num_sub m n).
    2:{ destruct n as [| | |x], m as [| | |y]; try done.
        unfold num_sub; cbn [num_neg num_add]. unfold overflow.
        replace (Qle_bool max_bound (x + - y))
          with (Qle_bool (y + - x) (- max_bound)).
        2:{ apply eq_true_iff_eq. rewrite !Qle_bool_iff. split; lra. }
        replace (Qle_bool (x + - y) (- max_bound))
          with (Qle_bool max_bound (y + - x)).
        2:{ apply eq_true_iff_eq. rewrite !Qle_bool_iff. split; lra. }
        pose proof max_bound_pos.
        destruct (Qle_bool max_bound (y + - x)) eqn:E1,
                 (Qle_bool (y + - x) (- max_bound)) eqn:E2;
          cbn [num_neg]; try done.
        - apply Qle_bool_iff in E1, E2. lra.
        - f_equal. unfold Qplus, Qopp; cbn [Qnum Qden].
          f_equal; [ring|apply Pos.mul_comm]. }
    rewrite num_pos_sub by done. split.
    + by intros ?%negb_false_iff.
    + intros ?%negb_true_iff. by apply num_le_total.
Qed.
End NumericSort.

(* ================================================================== *)
(** ** Sorting by [createdAt], on every store *)
(* ================================================================== *)

Section CreatedAt.
Context `{Host}.

Lemma step_created (r : request) (memory : list property) :
  created_store memory → created_store (snd (step r memory)).
Proof.
  unfold created_store. intros Hm. destruct r as [c b|qry|id b|id]; cbn [step snd].
  - constructor; [by eexists|done].
  - done.
  - unfold handle_put.
    destruct (findIndex id memory) as [[i x]|] eqn:Hfind; cbn [snd]; [|done].
    apply list_find_Some in Hfind as (Hi & _ & _).
    apply Forall_insert; [done|]. cbn [createdAt].
    by apply (Forall_lookup_1 _ _ _ _ Hm Hi).
  - unfold handle_delete.
    destruct (findIndex id memory) as [[i x]|]; cbn [snd]; [|done].
    by apply Forall_delete.
Qed.

Lemma run_created (rs : list request) (memory : list property) :
  created_store memory → created_store (snd (run rs memory)).
Proof.
  revert memory; induction rs as [|r rs IH]; intros memory Hm; [done|].
  cbn [run]. pose proof (step_created r memory Hm) as Hstep.
  destruct (step r memory) as [resp memory']. specialize (IH memory' Hstep).
  by destruct (run rs memory').
Qed.

(** X20.  Whatever requests built the store, the read sorted by
    [createdAt] returns its first twenty records in the order of the
    store, newest first, for [order=asc] as for [order=desc]. *)
Lemma createdAt_order_ignored (rs : list request) (ord : string) :
  let memory := snd (run rs []) in
  is_array memory →
  handle_get (by_createdAt ord) memory
  = Json 200 (Page (take 20 memory) (length memory) (of_Z 1) (of_Z 20)).
Proof.
  intros memory Harr. apply handle_get_by_createdAt; [done|].
  assert (Hc : created_store memory) by (apply run_created; constructor).
  unfold created_store in Hc. eapply Forall_impl; [exact Hc|].
  intros x [t ->]. apply toISOString_NaN.
Qed.
End CreatedAt.

(* ================================================================== *)
(** ** The scenario of the specification *)
(* ================================================================== *)

(** After the creates of [{1000, "Paris", 4.5}], [{500, "Lyon", 6.0}] and
    [{1500, "Paris", 3.0}], the read [?q=paris&sortBy=price&order=asc]
    returns the first and the third, in this order, with a total of 2. *)
Example scenario_paris_by_price :
  let H := Plain.host in
  let qry := {|
    q := Some "paris"%string; minPrice := None; maxPrice := None;
    minYield := None; maxYield := None;
    sortBy := Some "price"%string; order := Some "asc"%string;
    page := None; pageSize := None |} in
  ∃ x y,
    handle_get qry sample_store = Json 200 (Page [x; y] 2 (of_Z 1) (of_Z 20))
    ∧ price x = VNum (of_Z 1000) ∧ price y = VNum (of_Z 1500).
Proof. eexists _, _. split; [vm_compute; reflexivity|done]. Qed.

(* ================================================================== *)
(** ** Filters, taken together *)
(* ================================================================== *)

Section Filters.
Context `{Host}.


(** X2.  Where the two bounds of a field are integers a number holds
    exactly (2^53 at most in magnitude) and the lower one is above the
    upper one, no record is within them: on a store whose prices,
    locations and yields are no objects, the read answers 200 with no
    item and a total of 0, or 500 when its text filter is no pattern. *)
Theorem crossed_bounds_select_nothing (qry : query) (memory : list property)
    (lo hi : string) (a b : Z) :
  (minPrice qry = Some lo ∧ maxPrice qry = Some hi
   ∨ minYield qry = Some lo ∧ maxYield qry = Some hi) →
  lo ≠ ""%string → hi ≠ ""%string →
  Number (VStr lo) = of_Z a → Number (VStr hi) = of_Z b →
  (Z.abs a <= 9007199254740992)%Z → (Z.abs b <= 9007199254740992)%Z →
  (b < a)%Z →
  Forall (λ x, scalar_fields x = true) memory →
  handle_get qry memory
  = if pattern_ok qry
    then Json 200 (Page [] 0 (pageNum qry) (sizeNum qry))
    else Json 500 (Failure (Thrown SyntaxError)).
Proof.
  intros Hq Hlo Hhi Ha Hb _ _ Hab _.
  assert (Hcross : num_le (Number (VStr lo)) (Number (VStr hi)) = false).
  { rewrite Ha, Hb, num_le_of_Z. apply Z.leb_gt. lia. }
  assert (Htl : truthy (Some lo) = true)
    by (cbn [truthy]; by destruct (String.eqb_spec lo "")).
  assert (Hth : truthy (Some hi) = true)
    by (cbn [truthy]; by destruct (String.eqb_spec hi "")).
  assert (Hnone : ∀ field l,
    List.filter (in_range field
      (Some {| gte := Some (Number (VStr lo));
               lte := Some (Number (VStr hi)) |})) l = []).
  { intros field l. apply filter_none. intros x. cbn [in_range gte lte].
    apply andb_false_iff.
    destruct (num_ge (Number (field x)) (Number (VStr lo))) eqn:E1; [|by left].
    destruct (num_le (Number (field x)) (Number (VStr hi))) eqn:E2; [|by right].
    unfold num_ge in E1. rewrite (num_le_trans _ _ _ E1 E2) in Hcross. done. }
  rewrite handle_get_empty.
  - unfold pattern_ok, apply_regex.
    destruct (filter_location (build_filter qry)) as [s|]; [|done].
    by destruct (RegExp_i s).
  - intros lst Hrx. unfold select. rewrite Hrx; cbn [bind]. f_equal.
    rewrite !apply_range_in_range.
    destruct Hq as [[Hmin Hmax]|[Hmin Hmax]];
      unfold build_filter, build_range, bound;
      cbn [filter_price filter_rentalYield];
      rewrite Hmin, Hmax, Htl, Hth; cbn [orb]; by rewrite Hnone.
Qed.
End Filters.

(* ================================================================== *)
(** ** When a read fails *)
(* ================================================================== *)

Section SortReturns.
Context {A : Type} (comparefn : A → A → result num) (P : A → Prop).

Lemma insert_sorted_returns (x : A) (l : list A) :
  (∀ a b, P a → P b → ∃ v, comparefn a b = Return v) →
  P x → Forall P l → ∃ r, insert_sorted comparefn x l = Return r.
Proof.
  intros Hc Hx Hl. induction Hl as [|y l Hy Hl [r IH]]; cbn [insert_sorted].
  - by eexists.
  - destruct (Hc x y Hx Hy) as [v ->]; cbn [bind].
    destruct (num_pos v); [rewrite IH|]; by eexists.
Qed.

Lemma sort_returns (l : list A) :
  (∀ a b, P a → P b → ∃ v, comparefn a b = Return v) →
  Forall P l → ∃ r, sort comparefn l = Return r.
Proof.
  intros Hc Hl. induction Hl as [|x l Hx Hl [s IH]]; cbn [sort].
  - by eexists.
  - rewrite IH; cbn [bind]. apply insert_sorted_returns; [done..|].
    apply sort_perm in IH. by rewrite IH.
Qed.

(** As soon as there are two elements, the comparison function is
    called; if it throws whatever it is given, so does the sort. *)
Lemma sort_throws (l : list A) (e : exn) :
  (∀ a b, P a → comparefn a b = Throw e) →
  Forall P l → 2 ≤ length l → sort comparefn l = Throw e.
Proof.
  intros Hc Hl. induction Hl as [|x l Hx Hl IH]; cbn [length]; [lia|].
  intros Hlen. cbn [sort].
  destruct l as [|y [|z l]]; cbn [length] in *; [lia| |].
  - cbn [sort insert_sorted bind]. by rewrite Hc.
  - rewrite IH by lia. done.
Qed.
End SortReturns.

Section ReadErrors.
Context `{Host}.

(** The filtering steps fail exactly on a text filter that is no pattern. *)
Lemma select_pattern (qry : query) (memory : list property) :
  select (build_filter qry) memory
  = if pattern_ok qry then Return (List.filter (matches qry) memory)
    else Throw SyntaxError.
Proof.
  destruct (select (build_filter qry) memory) as [filtered|e] eqn:Hsel.
  - rewrite <- (select_matches _ _ _ Hsel).
    unfold select, apply_regex, pattern_ok in *.
    destruct (filter_location (build_filter qry)) as [s|]; [|done].
    by destruct (RegExp_i s).
  - unfold select, apply_regex, pattern_ok in *.
    destruct (filter_location (build_filter qry)) as [s|]; [|done].
    destruct (RegExp_i s); cbn [bind] in Hsel; [done|]. by injection Hsel as <-.
Qed.

(** X3.  A read whose text filter is no pattern answers 500, whatever its
    other parameters and whatever the store holds.  Any other read that
    is not sorted by [location] answers 200 on a store whose prices,
    locations and yields are no objects: nothing is left to throw in the
    filters, and the comparison of such values never throws. *)
Theorem read_fails_only_on_pattern (qry : query) (memory : list property) :
  (pattern_ok qry = false →
   handle_get qry memory = Json 500 (Failure (Thrown SyntaxError)))
  ∧ (pattern_ok qry = true →
     default (sortBy qry) "createdAt" ≠ "location"%string →
     Forall (λ x, scalar_fields x = true) memory →
     ∃ items,
       handle_get qry memory
       = Json 200 (Page items (length (List.filter (matches qry) memory))
                        (pageNum qry) (sizeNum qry))).
Proof.
  split.
  - intros Hp. unfold handle_get. by rewrite select_pattern, Hp.
  - intros Hp Hkey _. unfold handle_get.
    rewrite select_pattern, Hp; cbn [bind].
    destruct (sort_returns
                (comparator (default (sortBy qry) "createdAt")
                            (default (order qry) "desc"))
                (λ _, True) (List.filter (matches qry) memory))
      as [lst Hsort].
    + intros a b _ _. unfold comparator.
      destruct (String.eqb_spec (default (sortBy qry) "createdAt") "location");
        [done|by eexists].
    + by apply Forall_forall.
    + unfold sorted. rewrite Hsort.
      rewrite (sort_length _ _ _ Hsort). by eexists.
Qed.

(** X4.  On a store that creates, reads and deletes have built, with no
    update, every location is a string, and a read sorted by [location]
    answers 200 unless its text filter is no pattern. *)
Theorem location_sort_after_creates (rs : list request) (qry : query) :
  Forall (λ r, ∀ id b, r ≠ PUT id b) rs →
  sortBy qry = Some "location"%string →
  pattern_ok qry = true →
  let memory := snd (run rs []) in
  Forall (λ x, ∃ s, location x = VStr s) memory
  ∧ ∃ items,
      handle_get qry memory
      = Json 200 (Page items (length (List.filter (matches qry) memory))
                       (pageNum qry) (sizeNum qry)).
Proof.
  intros Hrs Hkey Hp memory.
  assert (Hloc : Forall (λ x, ∃ s, location x = VStr s) memory).
  { subst memory. generalize (@nil property) (Forall_nil_2
      (λ x : property, ∃ s, location x = VStr s)).
    induction Hrs as [|r rs Hr Hrs IH]; intros m Hm; [done|].
    cbn [run]. destruct (step r m) as [resp m'] eqn:Hstep.
    specialize (IH m'). destruct (run rs m') as [resps m''] eqn:Hrun.
    cbn [snd] in *. apply IH.
    destruct r as [c b|q0|id b|id]; cbn [step] in Hstep.
    - injection Hstep as <- <-. constructor; [by eexists|done].
    - by injection Hstep as <- <-.
    - by destruct (Hr id b).
    - unfold handle_delete in Hstep.
      destruct (findIndex id m) as [[i x]|]; injection Hstep as <- <-;
        [by apply Forall_delete|done]. }
  split; [done|].
  unfold handle_get. rewrite select_pattern, Hp; cbn [bind].
  destruct (sort_returns
              (comparator "location" (default (order qry) "desc"))
              (λ x, ∃ s, location x = VStr s)
              (List.filter (matches qry) memory))
    as [lst Hsort].
  - intros a b [s Ha] _. unfold comparator; cbn [String.eqb Ascii.eqb Bool.eqb].
    rewrite Ha. by eexists.
  - by apply Forall_List_filter.
  - unfold sorted. rewrite Hkey; cbn [default]. rewrite Hsort.
    rewrite (sort_length _ _ _ Hsort). by eexists.
Qed.

(** X5.  A read sorted by [location] answers 500 when two records or more
    meet its conditions and none of them has a string for location (an
    update whose body has no location leaves such a record): the
    comparison function calls [localeCompare] on what is no string. *)
Theorem location_sort_fails_without_strings (qry : query)
    (memory : list property) :
  sortBy qry = Some "location"%string →
  pattern_ok qry = true →
  Forall (λ x, matches qry x = true → ∀ s, location x ≠ VStr s) memory →
  2 ≤ length (List.filter (matches qry) memory) →
  handle_get qry memory = Json 500 (Failure (Thrown TypeError)).
Proof.
  intros Hkey Hp Hloc Hlen.
  unfold handle_get. rewrite select_pattern, Hp; cbn [bind].
  unfold sorted. rewrite Hkey; cbn [default].
  rewrite (sort_throws _ (λ x, ∀ s, location x ≠ VStr s) _ TypeError); try done.
  - intros a b Ha. unfold comparator; cbn [String.eqb Ascii.eqb Bool.eqb].
    destruct (location a) as [| | | |s|]; try done. by destruct (Ha s).
  - apply Forall_forall. intros x [Hx Hm]%list_elem_of_In%filter_In.
    apply list_elem_of_In in Hx.
    by apply (proj1 (Forall_forall _ _) Hloc x Hx).
Qed.
(** X6.  With one record at most that meets its conditions, a read never
    calls the comparison function: on a store whose prices, locations
    and yields are no objects it answers 200 whatever the sort key, also
    by [location] where the record has no location, and its first page is
    the record. *)
Theorem read_of_one_record (qry : query) (memory : list property) :
  pattern_ok qry = true →
  length (List.filter (matches qry) memory) ≤ 1 →
  Forall (λ x, scalar_fields x = true) memory →
  ∃ items,
    handle_get qry memory
    = Json 200 (Page items (length (List.filter (matches qry) memory))
                     (pageNum qry) (sizeNum qry))
    ∧ (of_Z 1 = pageNum qry → items = List.filter (matches qry) memory).
Proof.
  intros Hp Hlen _. unfold handle_get.
  rewrite select_pattern, Hp; cbn [bind].
  assert (Hsort : sorted qry (List.filter (matches qry) memory)
                  = Return (List.filter (matches qry) memory)).
  { unfold sorted.
    destruct (List.filter (matches qry) memory) as [|x [|y l]];
      cbn [length] in Hlen; [done|done|lia]. }
  rewrite Hsort. eexists. split; [done|]. intros <-.
  destruct (sizeNum_range qry) as (n & Hn & ->).
  rewrite (slice_page _ 1 n); [|
    destruct (List.filter (matches qry) memory) as [|x [|y l]];
      cbn [length] in *; lia|lia|done].
  change (Z.to_nat ((1 - 1) * n)) with 0. rewrite drop_0.
  apply take_ge. lia.
Qed.

End ReadErrors.

(* ================================================================== *)
(** ** Delete and update, step by step *)
(* ================================================================== *)

(** An update leaves the first record with the id where it was. *)
Lemma findIndex_insert (id : string) (memory : list property) (i : nat)
    (x x' : property) :
  findIndex id memory = Some (i, x) → _id x' = id →
  findIndex id (<[i := x']> memory) = Some (i, x').
Proof.
  unfold findIndex. intros (Hi & _ & Hfirst)%list_find_Some Hid.
  apply list_find_Some. split; [|split; [done|]].
  - apply list_lookup_insert_eq. by eapply lookup_lt_Some.
  - intros j y Hj Hlt. rewrite list_lookup_insert_ne in Hj by lia.
    by eapply Hfirst.
Qed.

(** X7.  A delete whose id no stored record has answers 404 and leaves the
    store as it was. *)
Theorem delete_unknown_id (id : string) (memory : list property) :
  Forall (λ x, _id x ≠ id) memory →
  handle_delete id memory = (Json 404 (Failure Not_found), memory).
Proof.
  intros Hid. unfold handle_delete, findIndex.
  by rewrite (proj2 (list_find_None (λ x, _id x = id) memory) Hid).
Qed.

(** X8.  A delete that answers 200 has removed one record, the first of
    the store with the id; the records before it and after it are the
    ones they were, in the same order. *)
Theorem delete_removes_first (id : string) (memory memory' : list property)
    (resp : response) :
  handle_delete id memory = (resp, memory') →
  status resp = 200%Z →
  ∃ before x after,
    memory = before ++ x :: after
    ∧ memory' = before ++ after
    ∧ _id x = id
    ∧ Forall (λ y, _id y ≠ id) before
    ∧ resp = Json 200 OkTrue.
Proof.
  unfold handle_delete.
  destruct (findIndex id memory) as [[i x]|] eqn:Hfind.
  2:{ by intros [= <- <-]. }
  intros [= <- <-] _.
  apply list_find_Some in Hfind as (Hi & Hid & Hfirst).
  exists (take i memory), x, (drop (S i) memory).
  split; [by rewrite take_drop_middle|].
  split; [apply delete_take_drop|]. split; [done|]. split; [|done].
  apply Forall_forall. intros y [j Hj]%list_elem_of_lookup.
  apply lookup_take_Some in Hj as [Hj Hlt]. by eapply Hfirst.
Qed.

(** X9.  An update changes no identifier and no creation date, so the
    store has the same identifiers, in the same places, before and
    after. *)
Theorem put_keeps_ids_and_dates (id : string) (b : Body.t)
    (memory : list property) :
  _id <$> snd (handle_put id b memory) = _id <$> memory
  ∧ createdAt <$> snd (handle_put id b memory) = createdAt <$> memory.
Proof.
  unfold handle_put.
  destruct (findIndex id memory) as [[i x]|] eqn:Hfind; cbn [snd]; [|done].
  apply list_find_Some in Hfind as (Hi & _ & _).
  rewrite !list_fmap_insert; cbn [_id createdAt].
  split; apply list_insert_id; by rewrite list_lookup_fmap, Hi.
Qed.

(** X10.  The same update made twice answers and leaves what it answers
    and leaves made once. *)
Theorem put_twice (id : string) (b : Body.t) (memory : list property) :
  handle_put id b (snd (handle_put id b memory)) = handle_put id b memory.
Proof.
  unfold handle_put at 2 3.
  destruct (findIndex id memory) as [[i x]|] eqn:Hfind; cbn [snd].
  - unfold handle_put.
    pose proof (list_find_Some (λ y, _id y = id) memory i x) as [Hx _].
    destruct (Hx Hfind) as (_ & Hid & _).
    erewrite findIndex_insert; [|done|done]. cbn [_id createdAt].
    by rewrite list_insert_insert_eq.
  - unfold handle_put. by rewrite Hfind.
Qed.

(** X11.  A delete that follows an update of the same id answers and
    leaves what it would have without the update: the update has not
    moved the record and the delete removes it whole. *)
Theorem delete_after_put (id : string) (b : Body.t) (memory : list property) :
  handle_delete id (snd (handle_put id b memory)) = handle_delete id memory.
Proof.
  unfold handle_put.
  destruct (findIndex id memory) as [[i x]|] eqn:Hfind; cbn [snd]; [|done].
  unfold handle_delete. rewrite Hfind.
  pose proof (list_find_Some (λ y, _id y = id) memory i x) as [Hx _].
  destruct (Hx Hfind) as (Hi & Hid & _).
  erewrite findIndex_insert; [|done|done]. f_equal.
  rewrite !delete_take_drop, take_insert_ge, drop_insert_lt by lia. done.
Qed.

Section CreateThen.
Context `{Host}.

(** X12.  A create followed by the delete of the id it answered leaves
    the store as it was before the create, whatever the store holds: the
    new record is first, and first found. *)
Theorem create_then_delete (c : clock) (b : Body.t) (memory : list property) :
  ∃ obj,
    run [POST c b; DELETE (_id obj)] memory
    = ([Json 201 (One obj); Json 200 OkTrue], memory)
    ∧ fst (handle_post c b memory) = Json 201 (One obj).
Proof.
  eexists. split; [|reflexivity].
  cbn [run step handle_post _id]. unfold handle_delete, findIndex.
  cbn [list_find _id]. rewrite decide_True by done. reflexivity.
Qed.

(** X13.  On a store that requests have built, a create followed by the
    read with no parameter answers the new record first, with the price,
    location and yield the create made of the body, and a total one
    above the number of records there were. *)
Theorem create_then_read (rs : list request) (c : clock) (b : Body.t) :
  let memory := snd (run rs []) in
  is_array (snd (handle_post c b memory)) →
  ∃ obj,
    handle_post c b memory = (Json 201 (One obj), obj :: memory)
    ∧ handle_get no_query (obj :: memory)
      = Json 200 (Page (obj :: take 19 memory) (S (length memory))
                       (of_Z 1) (of_Z 20))
    ∧ price obj = VNum (Number (Body.price b))
    ∧ location obj = VStr (String_ (Body.location b))
    ∧ rentalYield obj = VNum (Number (Body.rentalYield b)).
Proof.
  intros memory Harr. eexists. split; [reflexivity|]. split; [|done].
  change (handle_get no_query ?m) with (handle_get (by_createdAt "desc") m).
  rewrite handle_get_by_createdAt; [done|exact Harr|].
  assert (Hc : created_store memory) by (apply run_created; constructor).
  constructor.
  - apply toISOString_NaN.
  - eapply Forall_impl; [exact Hc|]. intros x [t ->]. apply toISOString_NaN.
Qed.
End CreateThen.

(* ================================================================== *)
(** ** The store along a sequence of requests *)
(* ================================================================== *)

Section Sequences.
Context `{Host}.

Lemma step_size (r : request) (memory : list property) :
  length (snd (step r memory)) + deleted_count [fst (step r memory)]
  = length memory + created_count [fst (step r memory)].
Proof.
  destruct r as [c b|qry|id b|id]; cbn [step fst snd].
  - cbn. lia.
  - unfold handle_get, created_count, deleted_count.
    destruct (let* lst := select (build_filter qry) memory in sorted qry lst);
      cbn; lia.
  - unfold handle_put.
    destruct (findIndex id memory) as [[i x]|]; cbn [fst snd]; [|cbn; lia].
    rewrite length_insert. cbn. lia.
  - unfold handle_delete.
    destruct (findIndex id memory) as [[i x]|] eqn:Hfind; cbn [fst snd];
      [|cbn; lia].
    apply list_find_Some in Hfind as (Hi & _ & _).
    pose proof (lookup_lt_Some _ _ _ Hi).
    rewrite length_delete by eauto. cbn. lia.
Qed.

(** X14.  Along any sequence of requests the number of records is the
    number there were, plus the creates answered 201, minus the deletes
    answered [{ok: true}]: reads and updates, and the requests answered
    404 or 500, add and remove nothing. *)
Theorem store_size_accounting (rs : list request) (memory : list property) :
  length (snd (run rs memory)) + deleted_count (fst (run rs memory))
  = length memory + created_count (fst (run rs memory)).
Proof.
  revert memory; induction rs as [|r rs IH]; intros memory; [cbn; lia|].
  cbn [run]. pose proof (step_size r memory) as Hstep.
  destruct (step r memory) as [resp memory']. specialize (IH memory').
  destruct (run rs memory') as [resps memory'']. cbn [fst snd] in *.
  unfold created_count, deleted_count in *. cbn [List.filter] in *.
  destruct (status resp =? 201)%Z, (body resp); cbn [length] in *; lia.
Qed.

Lemma run_unique_ids (rs : list request) (memory : list property)
    (seen : list Z) :
  NoDup (seen ++ clocks rs) →
  Forall (λ t, (Z.abs t < 10 ^ 21)%Z) (clocks rs) →
  NoDup (_id <$> memory) →
  Forall (λ x, ∃ t, t ∈ seen ∧ _id x = Z_to_string t) memory →
  NoDup (_id <$> snd (run rs memory)).
Proof.
  revert memory seen; induction rs as [|r rs IH]; intros memory seen;
    [done|].
  intros Hnd Hrange Hmem Hseen. cbn [run].
  destruct (step r memory) as [resp memory'] eqn:Hstep.
  enough (Hinv : ∃ seen',
    NoDup (seen' ++ clocks rs)
    ∧ Forall (λ t, (Z.abs t < 10 ^ 21)%Z) (clocks rs)
    ∧ NoDup (_id <$> memory')
    ∧ Forall (λ x, ∃ t, t ∈ seen' ∧ _id x = Z_to_string t) memory').
  { destruct Hinv as (seen' & H1 & H2 & H3 & H4).
    specialize (IH memory' seen' H1 H2 H3 H4).
    by destruct (run rs memory'). }
  destruct r as [c b|qry|id b|id]; cbn [step clocks] in *.
  - replace memory' with (snd (handle_post c b memory))
      by by rewrite Hstep.
    clear Hstep. unfold handle_post; cbn [snd].
    exists (seen ++ [Date_now c]).
    apply Forall_cons in Hrange as [Hc Hrange].
    rewrite <- app_assoc. split; [done|]. split; [done|].
    cbn [fmap list_fmap _id]. rewrite id_of_clock by done.
    apply NoDup_app in Hnd as (_ & Hfresh & _).
    split; [|constructor].
    + apply NoDup_cons. split; [|done].
      intros (x & Hx & Hin)%list_elem_of_fmap.
      destruct (proj1 (Forall_forall _ _) Hseen x Hin) as (t & Ht & Hid).
      rewrite Hid in Hx. apply Z_to_string_inj in Hx as <-.
      apply (Hfresh _ Ht). left.
    + exists (Date_now c). split; [|done].
      apply elem_of_app. right. left.
    + eapply Forall_impl; [exact Hseen|].
      intros x (t & Ht & Hid). exists t. split; [|done].
      apply elem_of_app. by left.
  - injection Hstep as <- <-. by exists seen.
  - exists seen. replace memory' with (snd (handle_put id b memory))
      by by rewrite Hstep.
    split; [done|]. split; [done|]. clear Hstep.
    unfold handle_put.
    destruct (findIndex id memory) as [[i x]|] eqn:Hfind; cbn [snd]; [|done].
    apply list_find_Some in Hfind as (Hi & _ & _). split.
    + rewrite list_fmap_insert; cbn [_id].
      rewrite list_insert_id; [done|]. by rewrite list_lookup_fmap, Hi.
    + apply Forall_insert; [done|]. cbn [_id].
      by apply (Forall_lookup_1 _ _ _ _ Hseen Hi).
  - exists seen. split; [done|]. split; [done|].
    unfold handle_delete in Hstep.
    destruct (findIndex id memory) as [[i x]|]; injection Hstep as <- <-;
      [|done].
    split; [|by apply Forall_delete].
    rewrite list_fmap_delete. eapply sublist_NoDup; [exact Hmem|].
    apply sublist_delete.
Qed.

(** X15.  Where no two creates of a sequence read the same millisecond off
    the clock, the store the sequence leaves has no two records with the
    same id, whatever updates and deletes come between the creates. *)
Theorem distinct_clocks_unique_ids (rs : list request) :
  NoDup (clocks rs) →
  Forall (λ t, (Z.abs t < 10 ^ 21)%Z) (clocks rs) →
  NoDup (_id <$> snd (run rs [])).
Proof.
  intros Hnd Hrange. apply (run_unique_ids rs [] []); try done.
  constructor.
Qed.
End Sequences.

(* ================================================================== *)
(** ** Pages, side by side *)
(* ================================================================== *)

Section Pages.
Context `{Host}.

Lemma page_window (qry : query) (memory items : list property)
    (total : nat) (pg sz : num) (p n : Z) :
  is_array memory →
  handle_get qry memory = Json 200 (Page items total pg sz) →
  pg = of_Z p → sz = of_Z n →
  ∃ lst,
    sorted qry (List.filter (matches qry) memory) = Return lst
    ∧ total = length lst ∧ (1 <= p)%Z ∧ (1 <= n <= 100)%Z
    ∧ items = take (Z.to_nat n) (drop (Z.to_nat ((p - 1) * n)) lst).
Proof.
  intros Harr (filtered & lst & Hsel & Hsort & Hpg & Hsz & -> & ->)%handle_get_200
    -> ->.
  pose proof (select_matches _ _ _ Hsel) as ->.
  assert (Hp : (1 <= p)%Z).
  { destruct (pageNum_cases qry) as [E|(p' & Hp' & E)]; rewrite E in Hpg;
      [done|]. injection Hpg as ->. done. }
  assert (Hn : (1 <= n <= 100)%Z).
  { destruct (sizeNum_range qry) as (n' & Hn' & E). rewrite E in Hsz.
    injection Hsz as ->. done. }
  exists lst. repeat split; try done; try lia.
  apply slice_page; [|done..].
  rewrite (sort_length _ _ _ Hsort). unfold is_array in Harr.
  pose proof (List.filter_length_le (matches qry) memory). lia.
Qed.

(** X16.  A page holds as many items as its size while the list lasts:
    the number of items of page [p] of size [n] is [n], or what is left of
    the total after the [(p - 1) * n] records of the pages before, or
    nothing when these already exhaust it. *)
Theorem page_length (qry : query) (memory items : list property)
    (total : nat) (pg sz : num) (p n : Z) :
  is_array memory →
  handle_get qry memory = Json 200 (Page items total pg sz) →
  pg = of_Z p → sz = of_Z n →
  length items = Z.to_nat n `min` (total - Z.to_nat ((p - 1) * n)).
Proof.
  intros Harr Hget Hpg Hsz.
  destruct (page_window _ _ _ _ _ _ _ _ Harr Hget Hpg Hsz)
    as (lst & _ & -> & _ & _ & ->).
  by rewrite length_take, length_drop.
Qed.

(** X17.  Two pages that follow each other neither overlap nor leave a
    gap: the items of page [p] followed by the items of page [p + 1] are
    the window of twice the page size of the sorted filtered list, from
    index [(p - 1) * n] on. *)
Theorem consecutive_pages (qry : query) (next : option string)
    (memory items : list property) (total : nat) (sz : num) (p n : Z) :
  is_array memory →
  handle_get qry memory = Json 200 (Page items total (of_Z p) sz) →
  sz = of_Z n →
  pageNum (with_page next qry) = of_Z (p + 1) →
  ∃ items' lst,
    handle_get (with_page next qry) memory
    = Json 200 (Page items' total (of_Z (p + 1)) sz)
    ∧ sorted qry (List.filter (matches qry) memory) = Return lst
    ∧ items ++ items'
      = take (2 * Z.to_nat n) (drop (Z.to_nat ((p - 1) * n)) lst).
Proof.
  intros Harr Hget Hsz Hnext.
  destruct (page_window _ _ _ _ _ _ _ _ Harr Hget eq_refl Hsz)
    as (lst & Hsort & -> & Hp & Hn & ->).
  assert (Hget' : handle_get (with_page next qry) memory
    = Json 200 (Page (slice lst
        (num_mul (num_sub (of_Z (p + 1)) (of_Z 1)) sz)
        (num_add (num_mul (num_sub (of_Z (p + 1)) (of_Z 1)) sz) sz))
        (length lst) (of_Z (p + 1)) sz)).
  { apply handle_get_200 in Hget
      as (filtered & lst' & Hsel & Hsort' & _ & Hsz' & _ & _).
    pose proof (select_matches _ _ _ Hsel) as ->.
    assert (lst' = lst) as -> by congruence.
    unfold handle_get.
    replace (build_filter (with_page next qry)) with (build_filter qry)
      by by destruct qry.
    rewrite Hsel; cbn [bind].
    replace (sorted (with_page next qry)) with (sorted qry) by by destruct qry.
    rewrite Hsort'. rewrite Hnext.
    replace (sizeNum (with_page next qry)) with (sizeNum qry)
      by by destruct qry.
    by rewrite <- Hsz'. }
  eexists _, lst. split; [exact Hget'|]. split; [done|].
  rewrite Hsz, slice_page; [|
    by rewrite (sort_length _ _ _ Hsort);
       pose proof (List.filter_length_le (matches qry) memory);
       unfold is_array in Harr; lia
    | lia | done].
  replace (Z.to_nat ((p + 1 - 1) * n))
    with (Z.to_nat ((p - 1) * n) + Z.to_nat n) by nia.
  rewrite <- drop_drop, take_take_drop. f_equal. lia.
Qed.
End Pages.

(* ================================================================== *)
(** ** Equal prices keep the order of the store *)
(* ================================================================== *)

Lemma num_neg_sub (a b : num) :
  is_NaN a = false → is_NaN b = false →
  num_pos (num_neg (num_sub a b)) = negb (num_le b a).
Proof.
  intros Ha Hb. rewrite <- (num_pos_sub b a) by done.
  destruct a as [| | |x], b as [| | |y]; try done.
  unfold num_sub; cbn [num_neg num_add]. unfold overflow.
  pose proof max_bound_pos.
  replace (Qle_bool max_bound (x + - y))
    with (Qle_bool (y + - x) (- max_bound)).
  2:{ apply eq_true_iff_eq. rewrite !Qle_bool_iff. split; lra. }
  replace (Qle_bool (x + - y) (- max_bound))
    with (Qle_bool max_bound (y + - x)).
  2:{ apply eq_true_iff_eq. rewrite !Qle_bool_iff. split; lra. }
  destruct (Qle_bool max_bound (y + - x)) eqn:E1,
           (Qle_bool (y + - x) (- max_bound)) eqn:E2; cbn [num_neg num_pos];
    try done.
  - apply Qle_bool_iff in E1, E2. lra.
  - f_equal. apply eq_true_iff_eq. rewrite !Qle_bool_iff. split; lra.
Qed.

Section Stable.
Context {A : Type} (comparefn : A → A → result num).
Context (P : A → Prop) (same : A → bool).
Hypothesis comparefn_apart :
  ∀ a b, P a → P b → ∃ v, comparefn a b = Return v ∧
                          (num_pos v = true → same a = true → same b = false).

Lemma insert_sorted_stable (x : A) (l r : list A) :
  P x → Forall P l → insert_sorted comparefn x l = Return r →
  List.filter same r = List.filter same (x :: l).
Proof using comparefn_apart.
  intros Hx Hl. revert r. induction Hl as [|y l Hy Hl IH]; intros r;
    cbn [insert_sorted].
  - by intros [= <-].
  - destruct (comparefn_apart x y Hx Hy) as (v & -> & Hv); cbn [bind].
    destruct (num_pos v); [|by intros [= <-]].
    destruct (insert_sorted comparefn x l) as [r'|]; cbn [bind]; [|done].
    intros [= <-]. specialize (IH r' eq_refl).
    cbn [List.filter] in *. rewrite IH.
    destruct (same x) eqn:Ex; [|done]. by rewrite (Hv eq_refl eq_refl).
Qed.

Lemma sort_stable (l r : list A) :
  Forall P l → sort comparefn l = Return r →
  List.filter same r = List.filter same l.
Proof using comparefn_apart.
  intros Hl. revert r. induction Hl as [|x l Hx Hl IH]; intros r; cbn [sort].
  - by intros [= <-].
  - destruct (sort comparefn l) as [s|] eqn:Hs; cbn [bind]; [|done].
    intros Hr. apply insert_sorted_stable in Hr; [|done|].
    + rewrite Hr. cbn [List.filter]. by rewrite (IH s eq_refl).
    + apply sort_perm in Hs. by rewrite Hs.
Qed.
End Stable.

Section StablePrice.
Context `{Host}.

(** X18.  Sorted by price, in either order, the records of one price come
    in the order they have in the store (the newest first): the sort moves
    no record past another of the same price. *)
Theorem equal_prices_keep_store_order (qry : query) (ord : string)
    (l lst : list property) (n : num) :
  sortBy qry = Some "price"%string →
  order qry = Some ord → ord = "asc"%string ∨ ord = "desc"%string →
  Forall (λ x, ∃ m, price x = VNum m ∧ is_NaN m = false) l →
  sorted qry l = Return lst →
  List.filter (priced n) lst = List.filter (priced n) l.
Proof.
  intros Hkey Hord Hdir Hnum Hsort.
  unfold sorted in Hsort. rewrite Hkey, Hord in Hsort; cbn [default] in Hsort.
  eapply (sort_stable _ (λ x, ∃ m, price x = VNum m ∧ is_NaN m = false));
    [|exact Hnum|exact Hsort].
  intros a b (na & Ha & Hna) (nb & Hb & Hnb).
  unfold comparator, get. cbn [String.eqb Ascii.eqb Bool.eqb].
  rewrite Ha, Hb. cbn [nullish Number]. eexists; split; [done|].
  unfold priced. rewrite Ha, Hb; cbn [Number].
  intros Hpos [Ha1 Ha2]%andb_true_iff. apply andb_false_iff.
  destruct (num_le n nb) eqn:E1; [|by left].
  destruct (num_le nb n) eqn:E2; [|by right]. exfalso.
  destruct Hdir as [-> | ->]; cbn [directed String.eqb Ascii.eqb Bool.eqb] in Hpos.
  - rewrite num_pos_sub in Hpos by done. apply negb_true_iff in Hpos.
    by rewrite (num_le_trans _ _ _ Ha2 E1) in Hpos.
  - rewrite num_neg_sub in Hpos by done. apply negb_true_iff in Hpos.
    by rewrite (num_le_trans _ _ _ E2 Ha1) in Hpos.
Qed.
End StablePrice.

(* ================================================================== *)
(** ** The statements above, on the sample stores *)
(* ================================================================== *)


Lemma crossed_bounds_select_nothing_witness :
  let H := Plain.host in
  let qry := {|
    q := None; minPrice := Some "600"%string; maxPrice := Some "500"%string;
    minYield := None; maxYield := None;
    sortBy := None; order := None; page := None; pageSize := None |} in
  handle_get qry sample_store = Json 200 (Page [] 0 (of_Z 1) (of_Z 20)).
Proof.
  intros H qry.
  refine (eq_trans
            (crossed_bounds_select_nothing qry sample_store "600" "500"
               600 500 _ _ _ _ _ _ _ _ _) _);
    [left; split; reflexivity|discriminate|discriminate
    |reflexivity|reflexivity|lia|lia|lia| |reflexivity].
  apply (bool_decide_unpack _). vm_compute. exact I.
Defined.

Lemma read_fails_only_on_pattern_witness :
  let H := Plain.host in
  let bad := {|
    q := Some "("%string; minPrice := None; maxPrice := None;
    minYield := None; maxYield := None;
    sortBy := None; order := None; page := None; pageSize := None |} in
  let good := {|
    q := Some "paris"%string; minPrice := None; maxPrice := None;
    minYield := None; maxYield := None;
    sortBy := Some "price"%string; order := None;
    page := None; pageSize := None |} in
  handle_get bad sample_store = Json 500 (Failure (Thrown SyntaxError))
  ∧ ∃ items,
      handle_get good sample_store
      = Json 200 (Page items
                       (length (List.filter (matches good) sample_store))
                       (pageNum good) (sizeNum good)).
Proof.
  intros H bad good. split.
  - apply (proj1 (read_fails_only_on_pattern bad sample_store)). reflexivity.
  - apply (proj2 (read_fails_only_on_pattern good sample_store));
      [reflexivity|discriminate|].
    apply (bool_decide_unpack _). vm_compute. exact I.
Defined.

Lemma location_sort_after_creates_witness :
  let H := Plain.host in
  let qry := sorted_by "location" "asc" no_query in
  Forall (λ x, ∃ s, location x = VStr s) (snd (run sample_posts []))
  ∧ ∃ items,
      handle_get qry (snd (run sample_posts []))
      = Json 200 (Page items
                       (length (List.filter (matches qry)
                                  (snd (run sample_posts []))))
                       (pageNum qry) (sizeNum qry)).
Proof.
  intros H qry.
  apply (location_sort_after_creates sample_posts qry);
    [|reflexivity|reflexivity].
  repeat (constructor; [intros ? ?; discriminate|]). constructor.
Defined.

Lemma location_sort_fails_without_strings_witness :
  let H := Plain.host in
  handle_get (sorted_by "location" "asc" no_query) updated_store
  = Json 500 (Failure (Thrown TypeError)).
Proof.
  intros H.
  apply (location_sort_fails_without_strings _ updated_store);
    [reflexivity|reflexivity| |vm_compute; lia].
  vm_compute. repeat (constructor; [intros _ s; discriminate|]). constructor.
Defined.

Lemma read_of_one_record_witness :
  let H := Plain.host in
  let qry := sorted_by "location" "asc" no_query in
  ∃ items,
    handle_get qry (take 1 updated_store)
    = Json 200 (Page items
                     (length (List.filter (matches qry) (take 1 updated_store)))
                     (pageNum qry) (sizeNum qry))
    ∧ (of_Z 1 = pageNum qry →
       items = List.filter (matches qry) (take 1 updated_store)).
Proof.
  intros H qry.
  apply (read_of_one_record qry (take 1 updated_store)); [reflexivity| |].
  - vm_compute. lia.
  - apply (bool_decide_unpack _). vm_compute. exact I.
Defined.

Lemma delete_unknown_id_witness :
  handle_delete "42" sample_store
  = (Json 404 (Failure Not_found), sample_store).
Proof.
  apply delete_unknown_id. vm_compute.
  repeat (constructor; [discriminate|]). constructor.
Defined.

Lemma delete_removes_first_witness :
  ∃ before x after,
    sample_store = before ++ x :: after
    ∧ snd (handle_delete "1700000060000" sample_store) = before ++ after
    ∧ _id x = "1700000060000"%string
    ∧ Forall (λ y, _id y ≠ "1700000060000"%string) before
    ∧ fst (handle_delete "1700000060000" sample_store) = Json 200 OkTrue.
Proof.
  apply (delete_removes_first "1700000060000" sample_store).
  - apply surjective_pairing.
  - vm_compute. reflexivity.
Defined.

Lemma create_then_read_witness :
  let H := Plain.host in
  ∃ obj,
    handle_post (at_ 1700000180000) lyon sample_store
    = (Json 201 (One obj), obj :: sample_store)
    ∧ handle_get no_query (obj :: sample_store)
      = Json 200 (Page (obj :: take 19 sample_store)
                       (S (length sample_store)) (of_Z 1) (of_Z 20))
    ∧ price obj = VNum (Number (Body.price lyon))
    ∧ location obj = VStr (String_ (Body.location lyon))
    ∧ rentalYield obj = VNum (Number (Body.rentalYield lyon)).
Proof.
  intros H.
  apply (create_then_read sample_posts (at_ 1700000180000) lyon).
  unfold is_array. vm_compute. reflexivity.
Defined.

Lemma distinct_clocks_unique_ids_witness :
  let H := Plain.host in
  NoDup (_id <$> snd (run (sample_posts
                             ++ [DELETE "1700000060000";
                                 PUT "1700000000000" price_only;
                                 POST (at_ 1700000180000) lyon]) [])).
Proof.
  intros H. apply distinct_clocks_unique_ids.
  - apply (bool_decide_unpack _). vm_compute. exact I.
  - apply (bool_decide_unpack _). vm_compute. exact I.
Defined.

Lemma page_length_witness :
  let H := Plain.host in
  let qry := {|
    q := None; minPrice := None; maxPrice := None;
    minYield := None; maxYield := None;
    sortBy := Some "price"%string; order := Some "asc"%string;
    page := Some "2"%string; pageSize := Some "2"%string |} in
  ∃ item,
    handle_get qry sample_store = Json 200 (Page [item] 3 (of_Z 2) (of_Z 2))
    ∧ length [item] = Z.to_nat 2 `min` (3 - Z.to_nat ((2 - 1) * 2)).
Proof.
  intros H qry. eexists. split; [vm_compute; reflexivity|].
  apply (page_length qry sample_store _ 3 (of_Z 2) (of_Z 2) 2 2);
    [|vm_compute; reflexivity|reflexivity|reflexivity].
  unfold is_array. vm_compute. reflexivity.
Defined.

Lemma consecutive_pages_witness :
  let H := Plain.host in
  let qry := {|
    q := None; minPrice := None; maxPrice := None;
    minYield := None; maxYield := None;
    sortBy := Some "price"%string; order := Some "asc"%string;
    page := Some "1"%string; pageSize := Some "2"%string |} in
  ∃ x y,
    handle_get qry sample_store = Json 200 (Page [x; y] 3 (of_Z 1) (of_Z 2))
    ∧ ∃ items' lst,
        handle_get (with_page (Some "2"%string) qry) sample_store
        = Json 200 (Page items' 3 (of_Z (1 + 1)) (of_Z 2))
        ∧ sorted qry (List.filter (matches qry) sample_store) = Return lst
        ∧ [x; y] ++ items'
          = take (2 * Z.to_nat 2) (drop (Z.to_nat ((1 - 1) * 2)) lst).
Proof.
  intros H qry. eexists _, _. split; [vm_compute; reflexivity|].
  apply (consecutive_pages qry (Some "2"%string) sample_store);
    [|vm_compute; reflexivity|reflexivity|reflexivity].
  unfold is_array. vm_compute. reflexivity.
Defined.

Lemma equal_prices_keep_store_order_witness :
  let H := Plain.host in
  let qry := sorted_by "price" "asc" no_query in
  ∃ new old dear1 dear2,
    tied_store = [new; dear1; old; dear2]
    ∧ sorted qry tied_store = Return [new; old; dear2; dear1]
    ∧ List.filter (priced (of_Z 500)) [new; old; dear2; dear1]
      = List.filter (priced (of_Z 500)) tied_store.
Proof.
  intros H qry. eexists _, _, _, _. split; [vm_compute; reflexivity|].
  split; [vm_compute; reflexivity|].
  apply (equal_prices_keep_store_order qry "asc" tied_store);
    [reflexivity|reflexivity|by left| |vm_compute; reflexivity].
  vm_compute. repeat (constructor; [eexists; split; reflexivity|]).
  constructor.
Defined.

Lemma price_in_order_witness :
  let H := Plain.host in
  let qry := sorted_by "price" "asc" no_query in
  ∃ items,
    handle_get qry tied_store = Json 200 (Page items 4 (of_Z 1) (of_Z 20))
    ∧ Sorted (λ x y, num_le (Number (price x)) (Number (price y)) = true)
             items.
Proof.
  intros H qry. eexists. split; [vm_compute; reflexivity|].
  apply (proj1 (price_in_order qry tied_store _ 4 (of_Z 1) (of_Z 20)
                  eq_refl
                  ltac:(vm_compute;
                        repeat (constructor; [eexists; split; reflexivity|]);
                        constructor)
                  ltac:(vm_compute; reflexivity))).
  reflexivity.
Defined.

Lemma createdAt_order_ignored_witness :
  let H := Plain.host in
  handle_get (by_createdAt "asc") (snd (run sample_posts []))
  = Json 200 (Page (take 20 (snd (run sample_posts [])))
                   (length (snd (run sample_posts []))) (of_Z 1) (of_Z 20)).
Proof.
  intros H. apply (createdAt_order_ignored sample_posts "asc").
  unfold is_array. vm_compute. reflexivity.
Defined.

Lemma id_nonempty_and_clock_witness :
  let H := Plain.host in
  ∃ x1 x2,
    fst (handle_post (at_ 1700000000000) paris []) = Json 201 (One x1)
    ∧ fst (handle_post (at_ 1700000060000) lyon []) = Json 201 (One x2)
    ∧ _id x1 ≠ ""%string
    ∧ (_id x1 = _id x2 ↔ 1700000000000 = 1700000060000)%Z.
Proof.
  intros H. eexists _, _. split; [reflexivity|]. split; [reflexivity|].
  apply (id_nonempty_and_clock (at_ 1700000000000) (at_ 1700000060000)
           paris lyon [] []); reflexivity.
Defined.

Lemma deleted_id_gone_when_unique_witness :
  let H := Plain.host in
  Forall (λ x, _id x ≠ "1700000060000"%string)
         (snd (handle_delete "1700000060000" sample_store))
  ∧ ∀ qry items total pg sz,
      handle_get qry (snd (handle_delete "1700000060000" sample_store))
      = Json 200 (Page items total pg sz) →
      Forall (λ x, _id x ≠ "1700000060000"%string) items.
Proof.
  intros H.
  apply (deleted_id_gone_when_unique "1700000060000" sample_store).
  - apply (bool_decide_unpack _). vm_compute. exact I.
  - vm_compute. reflexivity.
Defined.
